(** * The chat widget: transcript store and responder client

    A shallow embedding of the two React components of the repository:

    - the completion-backed widget (the [ChatWidget] whose
      [handleSendMessage] is an [async] function calling the completion
      endpoint), in [Module Widget];
    - the echo widget of [src/ChatWidget.jsx] (the bot turn is produced by
      a [setTimeout] callback), in [Module Echo].

    The handlers are written as command trees ([prog]) whose nodes are the
    effects the JavaScript performs, in source order; [await] and
    [setTimeout] suspend the tree and park the continuation as a task of
    the event loop, which a later event resumes.

    Two event loops run the trees. In [Runtime.step] every event reaches
    the handlers of a render of the current state. In [Concurrent.step]
    the state written by a continuation is rendered in a later turn, as
    under React 18, and a click that comes first reaches the handler of
    the older render; the effect that fetches the context document is part
    of these sessions.  *)

From Stdlib Require Import ZArith QArith List String Ascii Bool Lia.
From stdpp Require Import base list.
Import ListNotations.

Set Warnings "-register-all".

Local Open Scope Z_scope.
Local Open Scope list_scope.

(** ** The host: strings, JSON values, dates *)

Module Host.

(** A JavaScript string is a sequence of UTF-16 code units. *)
Definition jsstring : Type := list N.

(** String literals of the source, which are all ASCII. *)
Definition lit (s : string) : jsstring :=
  map N_of_ascii (list_ascii_of_string s).

(** [WhiteSpace] and [LineTerminator] of ECMAScript, the code units that
    [String.prototype.trim] strips. All of them are in the basic plane. *)
Definition is_white_space (c : N) : bool :=
  ((c =? 0x9) || (c =? 0xA) || (c =? 0xB) || (c =? 0xC) || (c =? 0xD)
   || (c =? 0x20) || (c =? 0xA0) || (c =? 0x1680)
   || ((0x2000 <=? c) && (c <=? 0x200A))
   || (c =? 0x2028) || (c =? 0x2029) || (c =? 0x202F) || (c =? 0x205F)
   || (c =? 0x3000) || (c =? 0xFEFF))%N.

Fixpoint trimStart (s : jsstring) : jsstring :=
  match s with
  | c :: s' => if is_white_space c then trimStart s' else s
  | [] => []
  end.

Definition trimEnd (s : jsstring) : jsstring := rev (trimStart (rev s)).

(** [String.prototype.trim] *)
Definition trim (s : jsstring) : jsstring := trimEnd (trimStart s).

(** [s === ''] *)
Definition is_empty_string (s : jsstring) : bool :=
  match s with [] => true | _ => false end.

(** Decimal digits of a natural number, as [String(n)] prints them. *)
Fixpoint digits_of_uint (d : Decimal.uint) : jsstring :=
  let digit (n : N) (r : Decimal.uint) := (48 + n)%N :: digits_of_uint r in
  match d with
  | Decimal.Nil => []
  | Decimal.D0 r => digit 0%N r
  | Decimal.D1 r => digit 1%N r
  | Decimal.D2 r => digit 2%N r
  | Decimal.D3 r => digit 3%N r
  | Decimal.D4 r => digit 4%N r
  | Decimal.D5 r => digit 5%N r
  | Decimal.D6 r => digit 6%N r
  | Decimal.D7 r => digit 7%N r
  | Decimal.D8 r => digit 8%N r
  | Decimal.D9 r => digit 9%N r
  end.

Definition decimal (n : nat) : jsstring := digits_of_uint (Nat.to_uint n).

(** A number as [JSON.parse] produces it: the value of the parsed double
    (an overflowing literal parses to an infinity; [NaN] cannot occur). *)
Inductive number : Type :=
| Finite (q : Q)
| Infinite (negative : bool).

Definition is_zero (n : number) : bool :=
  match n with
  | Finite q => Qeq_bool q 0
  | Infinite _ => false
  end.

(** JavaScript values that the handlers meet: the result of
    [response.json()] and of property reads on it. An object is the list
    of its own properties. *)
Inductive value : Type :=
| VUndefined
| VNull
| VBool (b : bool)
| VNum (n : number)
| VStr (s : jsstring)
| VArr (items : list value)
| VObj (props : list (jsstring * value)).

(** What a script can throw or a promise can reject with here. The
    [message] of the engine's own errors is engine text, so these errors
    are kept symbolic. *)
Inductive js_error : Type :=
| Error (message : jsstring)
| ApiError (status : Z) (detail : value)
| TypeError
| SyntaxError
| NetworkError.

Inductive settled (A : Type) : Type :=
| Fulfilled (a : A)
| Rejected (e : js_error).
Arguments Fulfilled {A} a.
Arguments Rejected {A} e.

(** ToBoolean *)
Definition truthy (v : value) : bool :=
  match v with
  | VUndefined | VNull => false
  | VBool b => b
  | VNum n => negb (is_zero n)
  | VStr s => negb (is_empty_string s)
  | VArr _ | VObj _ => true
  end.

Fixpoint own_property (props : list (jsstring * value)) (k : jsstring)
  : value :=
  match props with
  | [] => VUndefined
  | (k', v) :: rest =>
      if bool_decide (k' = k) then v else own_property rest k
  end.

Definition number_of_nat (n : nat) : number := Finite (inject_Z (Z.of_nat n)).

(** [v.name] for the names the handlers read ([choices], [length],
    [text], [error], [message]); none of them is inherited from a
    prototype except [length] of arrays and strings. Reading a property
    of [null] or [undefined] throws. *)
Definition get (v : value) (name : jsstring) : settled value :=
  match v with
  | VUndefined | VNull => Rejected TypeError
  | VBool _ | VNum _ => Fulfilled VUndefined
  | VStr s =>
      if bool_decide (name = lit "length")
      then Fulfilled (VNum (number_of_nat (length s)))
      else Fulfilled VUndefined
  | VArr items =>
      if bool_decide (name = lit "length")
      then Fulfilled (VNum (number_of_nat (length items)))
      else Fulfilled VUndefined
  | VObj props => Fulfilled (own_property props name)
  end.

(** [v[i]] for an integer index [i]. *)
Definition get_index (v : value) (i : nat) : settled value :=
  match v with
  | VUndefined | VNull => Rejected TypeError
  | VBool _ | VNum _ => Fulfilled VUndefined
  | VStr s =>
      Fulfilled (match s !! i with Some c => VStr [c] | None => VUndefined end)
  | VArr items =>
      Fulfilled (match items !! i with Some x => x | None => VUndefined end)
  | VObj props => Fulfilled (own_property props (decimal i))
  end.

(** [v === 0] *)
Definition strict_equals_zero (v : value) : bool :=
  match v with
  | VNum n => is_zero n
  | _ => false
  end.

(** [v.trim()]: only a string has the method; on anything else the call
    throws (the receiver is [null]/[undefined], or [trim] is not a
    function). *)
Definition call_trim (v : value) : settled jsstring :=
  match v with
  | VStr s => Fulfilled (trim s)
  | _ => Rejected TypeError
  end.

Definition has_own (props : list (jsstring * value)) (k : jsstring) : bool :=
  existsb (fun entry => bool_decide (fst entry = k)) props.

(** Whether ToString returns on a parsed value. An object is converted by
    its [toString], then its [valueOf]; an own [toString] of a parsed
    object is not callable, and [valueOf], own or inherited, then gives no
    primitive, so the conversion throws exactly when the object has an own
    [toString]. An array joins the conversions of its elements. *)
Fixpoint converts (v : value) : bool :=
  match v with
  | VObj props => negb (has_own props (lit "toString"))
  | VArr items => forallb converts items
  | _ => true
  end.

(** A value interpolated in a template literal: ToString, which
    throws a type error when the value does not convert. The string it
    returns is kept as the value it is the conversion of. *)
Definition interpolate (v : value) : settled value :=
  if converts v then Fulfilled v else Rejected TypeError.

(** A [Date], as the time value in milliseconds shifted to local time. *)
Definition Date : Type := Z.

Definition getHours (d : Date) : Z := (d / 3600000) mod 24.
Definition getMinutes (d : Date) : Z := (d / 60000) mod 60.
Definition getSeconds (d : Date) : Z := (d / 1000) mod 60.

Inductive field_style : Type := numeric | two_digit.

(** The options bag of [toLocaleTimeString]. *)
Record time_options : Type := {
  hour : option field_style;
  minute : option field_style;
  second : option field_style;
  hour12 : option bool
}.

Definition digit (n : Z) : N := (48 + Z.to_N n)%N.

Definition pad2 (n : Z) : jsstring := [digit (n / 10); digit (n mod 10)].

Definition render (st : field_style) (n : Z) : jsstring :=
  match st with
  | two_digit => pad2 n
  | numeric => if n <? 10 then [digit n] else pad2 n
  end.

(** [Date.prototype.toLocaleTimeString([], options)] of ECMA-402 for a
    host whose default locale writes Latin digits separated by a colon
    and prefers the 12-hour clock (en-US). With no time field requested
    the three of them default to [numeric]; [hour12: false] selects the
    locale's 24-hour cycle, 00 to 23, whose hour is written with two
    digits whatever its style; minutes and seconds that follow another
    field are always written with two digits. *)
Definition toLocaleTimeString (d : Date) (o : time_options) : jsstring :=
  let o' :=
    match hour o, minute o, second o with
    | None, None, None =>
        {| hour := Some numeric; minute := Some numeric;
           second := Some numeric; hour12 := hour12 o |}
    | _, _, _ => o
    end in
  let twelve := match hour12 o' with Some b => b | None => true end in
  let h := getHours d in
  let hour_part :=
    match hour o' with
    | None => []
    | Some st =>
        if twelve
        then render st (if h mod 12 =? 0 then 12 else h mod 12)
        else pad2 h
    end in
  let minute_part :=
    match minute o' with
    | None => []
    | Some st =>
        match hour o' with
        | Some _ => lit ":" ++ pad2 (getMinutes d)
        | None => render st (getMinutes d)
        end
    end in
  let second_part :=
    match second o' with
    | None => []
    | Some st =>
        match hour o', minute o' with
        | None, None => render st (getSeconds d)
        | _, _ => lit ":" ++ pad2 (getSeconds d)
        end
    end in
  let day_period :=
    match hour o' with
    | Some _ => if twelve then lit (if h <? 12 then " AM" else " PM") else []
    | None => []
    end in
  hour_part ++ minute_part ++ second_part ++ day_period.

(** The [Response] of [fetch], reduced to what the handler reads: the
    status and what [response.json()] settles to. *)
Record response : Type := {
  status : Z;
  json : settled value
}.

(** [response.ok]: the status is in the range 200 to 299. *)
Definition ok (r : response) : bool :=
  (200 <=? status r) && (status r <=? 299).

(** The arguments of a [fetch] call. The body is the value handed to
    [JSON.stringify]. *)
Record request : Type := {
  url : jsstring;
  method : jsstring;
  headers : list (jsstring * jsstring);
  body : value
}.

End Host.

(** ** The component state, command trees and the event loop *)

Module Runtime.
Import Host.

Inductive Sender : Type := user | bot.

(** A message record of the transcript. *)
Record message : Type := {
  text : jsstring;
  sender : Sender;
  timestamp : jsstring
}.

(** The four [useState] cells of the component. A render closes its
    handlers over one such value. *)
Record state : Type := {
  isExpanded : bool;
  messages : list message;
  inputText : jsstring;
  fileContent : jsstring
}.

(** The argument of [setMessages]: a new array, or a function of the
    array that is current when the update is applied. *)
Inductive update : Type :=
| Value (next : list message)
| Updater (f : list message -> list message).

(** The effects of a handler, in the order the source performs them. The
    tree ends in [Done] (the function returns) or in [Throw]. *)
Inductive prog : Type :=
| Done
| Throw (e : js_error)
| NewDate (k : Date -> prog)
| ReadApiKey (k : option jsstring -> prog)
| SetIsExpanded (b : bool) (k : prog)
| SetMessages (u : update) (k : prog)
| SetInputText (s : jsstring) (k : prog)
| SetFileContent (s : jsstring) (k : prog)
| ConsoleError (label : jsstring) (e : js_error) (k : prog)
| AwaitFetch (req : request) (k : settled response -> prog)
| AwaitJson (r : response) (k : settled value -> prog)
| SetTimeout (callback : prog) (delay : Z) (k : prog).

(** [try { body } catch (error) { handler }]: a throw of the body, also
    after an [await] of the body, enters the handler. The callback of a
    timer runs outside the block. *)
Fixpoint try_catch (body : prog) (handler : js_error -> prog) : prog :=
  match body with
  | Done => Done
  | Throw e => handler e
  | NewDate k => NewDate (fun d => try_catch (k d) handler)
  | ReadApiKey k => ReadApiKey (fun key => try_catch (k key) handler)
  | SetIsExpanded b k => SetIsExpanded b (try_catch k handler)
  | SetMessages u k => SetMessages u (try_catch k handler)
  | SetInputText s k => SetInputText s (try_catch k handler)
  | SetFileContent s k => SetFileContent s (try_catch k handler)
  | ConsoleError l e k => ConsoleError l e (try_catch k handler)
  | AwaitFetch req k => AwaitFetch req (fun r => try_catch (k r) handler)
  | AwaitJson r k => AwaitJson r (fun v => try_catch (k v) handler)
  | SetTimeout cb ms k => SetTimeout cb ms (try_catch k handler)
  end.

(** An expression that may throw, followed by the rest of the block. *)
Definition eval {A : Type} (s : settled A) (k : A -> prog) : prog :=
  match s with
  | Fulfilled a => k a
  | Rejected e => Throw e
  end.

(** [await p]: a rejection of [p] is thrown at the [await]. *)
Definition await_fetch (req : request) (k : response -> prog) : prog :=
  AwaitFetch req (fun s => eval s k).

Definition await_json (r : response) (k : value -> prog) : prog :=
  AwaitJson r (fun s => eval s k).

Declare Scope prog_scope.
Delimit Scope prog_scope with prog.
Bind Scope prog_scope with prog.
Notation "x <- c ;; k" := (c (fun x => k))
  (at level 100, c at next level, right associativity, only parsing)
  : prog_scope.
Notation "c ;; k" := (c k)
  (at level 100, right associativity, only parsing) : prog_scope.

(** A suspended continuation, waiting in the event loop. *)
Inductive task : Type :=
| PendingFetch (req : request) (k : settled response -> prog)
| PendingJson (r : response) (k : settled value -> prog)
| Timer (callback : prog) (delay : Z).

(** The widget instance and what it has done to the outside. *)
Record world : Type := {
  ui : state;
  tasks : list task;
  network : list request;
  console : list (jsstring * js_error);
  unhandled : list js_error
}.

Definition set_isExpanded (b : bool) (s : state) : state :=
  {| isExpanded := b; messages := messages s;
     inputText := inputText s; fileContent := fileContent s |}.

Definition set_messages (u : update) (s : state) : state :=
  {| isExpanded := isExpanded s;
     messages := match u with Value l => l | Updater f => f (messages s) end;
     inputText := inputText s; fileContent := fileContent s |}.

Definition set_inputText (t : jsstring) (s : state) : state :=
  {| isExpanded := isExpanded s; messages := messages s;
     inputText := t; fileContent := fileContent s |}.

Definition set_fileContent (t : jsstring) (s : state) : state :=
  {| isExpanded := isExpanded s; messages := messages s;
     inputText := inputText s; fileContent := t |}.

Definition with_ui (f : state -> state) (w : world) : world :=
  {| ui := f (ui w); tasks := tasks w; network := network w;
     console := console w; unhandled := unhandled w |}.

Definition park (t : task) (w : world) : world :=
  {| ui := ui w; tasks := tasks w ++ [t]; network := network w;
     console := console w; unhandled := unhandled w |}.

Definition unpark (i : nat) (w : world) : world :=
  {| ui := ui w; tasks := delete i (tasks w); network := network w;
     console := console w; unhandled := unhandled w |}.

Definition send (req : request) (w : world) : world :=
  {| ui := ui w; tasks := tasks w; network := network w ++ [req];
     console := console w; unhandled := unhandled w |}.

Definition report (l : jsstring) (e : js_error) (w : world) : world :=
  {| ui := ui w; tasks := tasks w; network := network w;
     console := console w ++ [(l, e)]; unhandled := unhandled w |}.

Definition escape (e : js_error) (w : world) : world :=
  {| ui := ui w; tasks := tasks w; network := network w;
     console := console w; unhandled := unhandled w ++ [e] |}.

Section EventLoop.

(** [process.env.REACT_APP_OPENAI_API_KEY], fixed when the bundle is built. *)
Variable apiKey : option jsstring.

(** Runs a command tree up to its end or its next suspension. [now] is
    what [new Date()] reads during this turn of the event loop. A state
    setter takes effect before the next event is handled. A [Throw] that
    reaches the top is an exception nobody caught. *)
Fixpoint run (now : Date) (p : prog) (w : world) : world :=
  match p with
  | Done => w
  | Throw e => escape e w
  | NewDate k => run now (k now) w
  | ReadApiKey k => run now (k apiKey) w
  | SetIsExpanded b k => run now k (with_ui (set_isExpanded b) w)
  | SetMessages u k => run now k (with_ui (set_messages u) w)
  | SetInputText s k => run now k (with_ui (set_inputText s) w)
  | SetFileContent s k => run now k (with_ui (set_fileContent s) w)
  | ConsoleError l e k => run now k (report l e w)
  | AwaitFetch req k => park (PendingFetch req k) (send req w)
  | AwaitJson r k => park (PendingJson r k) w
  | SetTimeout cb ms k => run now k (park (Timer cb ms) w)
  end.

(** The send handler of the component, closed over the state of the
    render that installed it. *)
Variable handleSendMessage : state -> prog.

(** What can happen to a mounted widget. The buttons and the input exist
    only in the branch of the JSX that renders them. *)
Inductive event : Type :=
| OpenClicked
| CloseClicked
| InputChanged (s : jsstring)
| SendRequested
| FileTextLoaded (s : jsstring)
| FetchSettled (i : nat) (outcome : settled response)
| JsonSettled (i : nat)
| TimerFired (i : nat).

(** One turn of the event loop at time [now]; [None] when the event cannot
    occur in [w]. These are the turns in which React has rendered the
    current state before the event is dispatched, so that the handler the
    event reaches is closed over [ui w]; the turns in which a render lags
    behind are those of [Concurrent.step]. The request for the context
    document is reduced here to the arrival of its text,
    [FileTextLoaded]; [Concurrent.step] has the request and its failure. *)
Definition step (now : Date) (e : event) (w : world) : option world :=
  match e with
  | OpenClicked =>
      if isExpanded (ui w) then None
      else Some (run now (SetIsExpanded true Done) w)
  | CloseClicked =>
      if isExpanded (ui w)
      then Some (run now (SetIsExpanded false Done) w)
      else None
  | InputChanged s =>
      if isExpanded (ui w) then Some (run now (SetInputText s Done) w)
      else None
  | SendRequested =>
      if isExpanded (ui w) then Some (run now (handleSendMessage (ui w)) w)
      else None
  | FileTextLoaded s => Some (run now (SetFileContent s Done) w)
  | FetchSettled i outcome =>
      match tasks w !! i with
      | Some (PendingFetch _ k) => Some (run now (k outcome) (unpark i w))
      | _ => None
      end
  | JsonSettled i =>
      match tasks w !! i with
      | Some (PendingJson r k) => Some (run now (k (json r)) (unpark i w))
      | _ => None
      end
  | TimerFired i =>
      match tasks w !! i with
      | Some (Timer cb _) => Some (run now cb (unpark i w))
      | _ => None
      end
  end.

Fixpoint steps (es : list (Date * event)) (w : world) : option world :=
  match es with
  | [] => Some w
  | (now, e) :: es' =>
      match step now e w with
      | Some w' => steps es' w'
      | None => None
      end
  end.

End EventLoop.

(** The widget as mounted: collapsed, empty transcript, nothing pending. *)
Definition mounted : world :=
  {| ui := {| isExpanded := false; messages := []; inputText := [];
              fileContent := [] |};
     tasks := []; network := []; console := []; unhandled := [] |}.

End Runtime.

(** ** The completion-backed widget *)

Module Widget.
Import Host Runtime.
Local Open Scope prog_scope.

(** [{ hour: '2-digit', minute: '2-digit', hour12: false }] *)
Definition timeOptions : time_options :=
  {| hour := Some two_digit; minute := Some two_digit; second := None;
     hour12 := Some false |}.

Definition newline : jsstring := [10%N].

(** The template literal of the prompt. *)
Definition prompt (fileContent inputText : jsstring) : jsstring :=
  lit "Context: " ++ fileContent ++ newline ++ newline
  ++ lit "User: " ++ inputText ++ newline ++ newline ++ lit "Bot:".

(** The two arguments of the [fetch] call. *)
Definition completionRequest (apiKey fileContent inputText : jsstring)
  : request :=
  {| url := lit "https://api.openai.com/v1/completions";
     method := lit "POST";
     headers :=
       [ (lit "Content-Type", lit "application/json");
         (lit "Authorization", lit "Bearer " ++ apiKey) ];
     body :=
       VObj
         [ (lit "model", VStr (lit "text-davinci-003"));
           (lit "prompt", VStr (prompt fileContent inputText));
           (lit "max_tokens", VNum (Finite 150));
           (lit "temperature", VNum (Finite (7 # 10))) ] |}.

Definition missingKey : js_error :=
  Error (lit "API key is missing. Make sure it's set in your .env file.").

Definition invalidResponse : js_error :=
  Error (lit "Invalid response from OpenAI API.").

(** [!apiKey]: the variable is unset or the empty string. *)
Definition present (apiKey : option jsstring) : option jsstring :=
  match apiKey with
  | Some (c :: key) => Some (c :: key)
  | Some [] | None => None
  end.

Definition handleSendMessage (rendered : state) : prog :=
  let messages := messages rendered in
  let inputText := inputText rendered in
  let fileContent := fileContent rendered in
  if is_empty_string (trim inputText) then Done else
  d <- NewDate ;;
  let newMessage :=
    {| text := inputText; sender := user;
       timestamp := toLocaleTimeString d timeOptions |} in
  SetMessages (Value (messages ++ [newMessage])) ;;
  SetInputText [] ;;
  try_catch
    (apiKey <- ReadApiKey ;;
     match present apiKey with
     | None => Throw missingKey
     | Some apiKey =>
         response <- await_fetch
                       (completionRequest apiKey fileContent inputText) ;;
         if negb (ok response) then
           errorData <- await_json response ;;
           error <- eval (get errorData (lit "error")) ;;
           message <- eval (get error (lit "message")) ;;
           detail <- eval (interpolate message) ;;
           Throw (ApiError (status response) detail)
         else
           data <- await_json response ;;
           choices <- eval (get data (lit "choices")) ;;
           if negb (truthy choices) then Throw invalidResponse else
           length <- eval (get choices (lit "length")) ;;
           if strict_equals_zero length then Throw invalidResponse else
           first <- eval (get_index choices 0) ;;
           completion <- eval (get first (lit "text")) ;;
           trimmed <- eval (call_trim completion) ;;
           d <- NewDate ;;
           let botResponse :=
             {| text := trimmed; sender := bot;
                timestamp := toLocaleTimeString d timeOptions |} in
           SetMessages (Updater (fun prevMessages =>
                                   prevMessages ++ [botResponse])) ;;
           Done
     end)
    (fun error =>
       ConsoleError (lit "Error fetching bot response:") error ;; Done).

End Widget.

(** ** The echo widget *)

Module Echo.
Import Host Runtime.
Local Open Scope prog_scope.

Definition timeOptions : time_options :=
  {| hour := Some two_digit; minute := Some two_digit; second := None;
     hour12 := Some false |}.

Definition handleSendMessage (rendered : state) : prog :=
  let messages := messages rendered in
  let inputText := inputText rendered in
  if is_empty_string (trim inputText) then Done else
  d <- NewDate ;;
  let newMessage :=
    {| text := inputText; sender := user;
       timestamp := toLocaleTimeString d timeOptions |} in
  SetMessages (Value (messages ++ [newMessage])) ;;
  SetInputText [] ;;
  SetTimeout
    (d <- NewDate ;;
     let botResponse :=
       {| text := lit "You said: " ++ inputText; sender := bot;
          timestamp := toLocaleTimeString d timeOptions |} in
     SetMessages (Updater (fun prevMessages =>
                             prevMessages ++ [botResponse])) ;;
     Done)
    500 ;;
  Done.

End Echo.

(** ** Predicates on command trees and on exchanges *)

Module Exchange.
Import Host Runtime.

(** The update appends exactly one record, sent by [who], to whatever the
    transcript is when the update is applied. *)
Definition appends_one (who : Sender) (u : update) : Prop :=
  match u with
  | Value _ => False
  | Updater f => exists m, sender m = who /\ forall prev, f prev = prev ++ [m]
  end.

(** The tree touches the component state only through [setMessages], and
    each of them, on every path and in every callback, appends one bot
    record. *)
Fixpoint replies (p : prog) : Prop :=
  match p with
  | Done | Throw _ => True
  | NewDate k => forall d, replies (k d)
  | ReadApiKey k => forall key, replies (k key)
  | SetIsExpanded _ _ => False
  | SetMessages u k => appends_one bot u /\ replies k
  | SetInputText _ _ | SetFileContent _ _ => False
  | ConsoleError _ _ k => replies k
  | AwaitFetch _ k => forall r, replies (k r)
  | AwaitJson _ k => forall v, replies (k v)
  | SetTimeout cb _ k => replies cb /\ replies k
  end.

Definition task_replies (t : task) : Prop :=
  match t with
  | PendingFetch _ k => forall r, replies (k r)
  | PendingJson _ k => forall v, replies (k v)
  | Timer cb _ => replies cb
  end.

(** Every parked continuation only replies. *)
Definition replying (w : world) : Prop := Forall task_replies (tasks w).

(** No path of the tree, and no callback it registers, ends in a throw
    that nothing catches. *)
Fixpoint catches (p : prog) : Prop :=
  match p with
  | Done => True
  | Throw _ => False
  | NewDate k => forall d, catches (k d)
  | ReadApiKey k => forall key, catches (k key)
  | SetIsExpanded _ k | SetMessages _ k | SetInputText _ k
  | SetFileContent _ k | ConsoleError _ _ k => catches k
  | AwaitFetch _ k => forall r, catches (k r)
  | AwaitJson _ k => forall v, catches (k v)
  | SetTimeout cb _ k => catches cb /\ catches k
  end.

(** The shape both send handlers have: nothing on blank input; otherwise
    the user record is put after the closed-over transcript, the input is
    cleared, and what follows only replies. *)
Definition submits (opts : time_options) (handler : state -> prog) : Prop :=
  forall rendered,
    if is_empty_string (trim (inputText rendered)) then handler rendered = Done
    else exists rest : prog,
        replies rest /\
        handler rendered =
          NewDate (fun d =>
            SetMessages
              (Value (messages rendered ++
                        [{| text := inputText rendered; sender := user;
                            timestamp := toLocaleTimeString d opts |}]))
              (SetInputText [] rest)).

(** [step], leaving the world as it is when the event cannot occur. *)
Definition advance (apiKey : option jsstring) (handler : state -> prog)
    (now : Date) (e : event) (w : world) : world :=
  match step apiKey handler now e w with
  | Some w' => w'
  | None => w
  end.

(** One submission of the completion-backed widget followed to its end
    with nothing else in between: the send at [t1]; the request it issued,
    if it issued one, settling with [outcome] at [t2]; and the body read
    that followed, if one did, settling at [t3]. *)
Definition exchange (apiKey : option jsstring) (t1 t2 t3 : Date)
    (outcome : settled response) (w : world) : option world :=
  let i := length (tasks w) in
  match step apiKey Widget.handleSendMessage t1 SendRequested w with
  | None => None
  | Some w1 =>
      Some (advance apiKey Widget.handleSendMessage t3 (JsonSettled i)
              (advance apiKey Widget.handleSendMessage t2
                 (FetchSettled i outcome) w1))
  end.

(** The completion field of a payload, [data.choices[0].text], when the
    reads succeed and it is a string. *)
Definition completion_field (data : value) : option jsstring :=
  match get data (lit "choices") with
  | Fulfilled choices =>
      match get_index choices 0 with
      | Fulfilled first =>
          match get first (lit "text") with
          | Fulfilled (VStr s) => Some s
          | _ => None
          end
      | Rejected _ => None
      end
  | Rejected _ => None
  end.

(** The three failures the responder's contract names. *)
Definition fails (apiKey : option jsstring) (outcome : settled response)
  : Prop :=
  Widget.present apiKey = None
  \/ (exists r, outcome = Fulfilled r /\ ok r = false)
  \/ (exists r data, outcome = Fulfilled r /\ ok r = true
                     /\ json r = Fulfilled data
                     /\ completion_field data = None).

Definition is_digit (c : N) : bool := ((48 <=? c) && (c <=? 57))%N.

Definition two_digits_below (bound : N) (a b : N) : bool :=
  is_digit a && is_digit b && (10 * (a - 48) + (b - 48) <? bound)%N.

(** Two digits of an hour below 24, a colon, two digits of a minute below
    60, and nothing else. *)
Definition is_hour_minute (s : jsstring) : bool :=
  match s with
  | [h1; h2; c; m1; m2] =>
      two_digits_below 24 h1 h2 && (c =? 58)%N && two_digits_below 60 m1 m2
  | _ => false
  end.

Definition is_toggle (e : event) : bool :=
  match e with
  | OpenClicked | CloseClicked => true
  | _ => false
  end.

Definition is_send (e : event) : bool :=
  match e with
  | SendRequested => true
  | _ => false
  end.

(** What the transcript shows of a record besides its time. *)
Definition shown (m : message) : jsstring * Sender := (text m, sender m).

End Exchange.

(** ** Sample inputs *)

Module Samples.
Import Host Runtime.

Definition sampleKey : option jsstring := Some (lit "sk-test").

(** An expanded widget with [input] typed and nothing sent yet. *)
Definition typed (input : jsstring) : world :=
  {| ui := {| isExpanded := true; messages := []; inputText := input;
              fileContent := [] |};
     tasks := []; network := []; console := []; unhandled := [] |}.

(** The payload [{ "choices": [ { "text": s } ] }]. *)
Definition completionPayload (s : jsstring) : value :=
  VObj [ (lit "choices", VArr [ VObj [ (lit "text", VStr s) ] ]) ].

(** The payload [{ "choices": [ {} ] }]. *)
Definition textlessPayload : value :=
  VObj [ (lit "choices", VArr [ VObj [] ]) ].

(** The payload [{ "error": { "message": s } }]. *)
Definition errorPayload (s : jsstring) : value :=
  VObj [ (lit "error", VObj [ (lit "message", VStr s) ]) ].

Definition responded (code : Z) (data : value) : response :=
  {| status := code; json := Fulfilled data |}.

End Samples.

(** ** The context document effect *)

Module FileEffect.
Import Host Runtime.

(** The [Response] of [fetch(fileUrl)], reduced to the status, which the
    effect never reads, and what [response.text()] settles to. *)
Record text_response : Type := {
  fileStatus : Z;
  bodyText : settled jsstring
}.

(** [fetch(fileUrl)]: no init argument, hence a GET without a body. *)
Definition fileRequest (fileUrl : jsstring) : request :=
  {| url := fileUrl; method := lit "GET"; headers := []; body := VUndefined |}.

(** The body of the effect, run at mount and when [fileUrl] changes:
    [if (fileUrl)] guards the [fetch]. *)
Definition fileEffect (fileUrl : option jsstring) (w : world) : world :=
  match fileUrl with
  | Some (c :: rest) => send (fileRequest (c :: rest)) w
  | Some [] | None => w
  end.

(** The promise chain on the fetch:
    [.then(response => response.text()).then(text => setFileContent(text))
     .catch(error => console.error('Error fetching file content:', error))].
    The two [then] hops touch nothing in between, so the chain is one
    tree, run in the turn in which the body text is there. *)
Definition fileChain (fetched : settled text_response) : prog :=
  match fetched with
  | Fulfilled response =>
      match bodyText response with
      | Fulfilled text => SetFileContent text Done
      | Rejected error =>
          ConsoleError (lit "Error fetching file content:") error Done
      end
  | Rejected error =>
      ConsoleError (lit "Error fetching file content:") error Done
  end.

(** The turn of the event loop in which the chain runs. *)
Definition fileSettled (apiKey : option jsstring) (now : Date)
    (fetched : settled text_response) (w : world) : world :=
  run apiKey now (fileChain fetched) w.

End FileEffect.

(** ** What the component renders *)

Module View.
Import Host Runtime.

(** One [div] of the message list. *)
Record row : Type := {
  key : nat;
  className : jsstring;
  messageText : jsstring;
  messageTimestamp : jsstring
}.

(** The two branches of the JSX: the chat button, or the chat window with
    its header, the message list and the input. *)
Inductive view : Type :=
| ChatButton (label : jsstring)
| ChatWindow (heading : jsstring) (rows : list row) (inputValue : jsstring).

(** [messages.map((msg, index) => ...)] *)
Definition messageRow (index : nat) (msg : message) : row :=
  {| key := index;
     className :=
       lit "message " ++
       match sender msg with
       | user => lit "user-message"
       | bot => lit "bot-message"
       end;
     messageText := text msg;
     messageTimestamp := timestamp msg |}.

Definition render (title description : jsstring) (s : state) : view :=
  if negb (isExpanded s) then ChatButton title
  else ChatWindow description (imap messageRow (messages s)) (inputText s).

End View.

(** ** Predicates on whole sessions *)

Module Session.
Import Host Runtime Exchange.

(** Having produced [n] outcomes in this turn, the tree produces one in
    all before it ends or suspends: a bot record satisfying [P], a
    console report, or one parked continuation that owes the same. It
    sets no other state and throws nothing uncaught. *)
Fixpoint owes (P : message -> Prop) (n : nat) (p : prog) : Prop :=
  match p with
  | Done => n = 1%nat
  | Throw _ => False
  | NewDate k => forall d, owes P n (k d)
  | ReadApiKey k => forall key, owes P n (k key)
  | SetIsExpanded _ _ | SetInputText _ _ | SetFileContent _ _ => False
  | SetMessages u k =>
      match u with
      | Value _ => False
      | Updater f =>
          exists m, sender m = bot /\ P m /\ forall prev, f prev = prev ++ [m]
      end
      /\ owes P (S n) k
  | ConsoleError _ _ k => owes P (S n) k
  | AwaitFetch _ k => n = 0%nat /\ forall r, owes P 0 (k r)
  | AwaitJson _ k => n = 0%nat /\ forall v, owes P 0 (k v)
  | SetTimeout cb _ k => owes P 0 cb /\ owes P (S n) k
  end.

Definition task_owes (P : message -> Prop) (t : task) : Prop :=
  match t with
  | PendingFetch _ k => forall r, owes P 0 (k r)
  | PendingJson _ k => forall v, owes P 0 (k v)
  | Timer cb _ => owes P 0 cb
  end.

(** The shape of a send handler whose submissions each come to one
    outcome. *)
Definition serves (P : message -> Prop) (handler : state -> prog) : Prop :=
  forall rendered,
    if is_empty_string (trim (inputText rendered)) then handler rendered = Done
    else exists rest : prog,
        owes P 0 rest /\
        handler rendered =
          NewDate (fun d =>
            SetMessages
              (Value (messages rendered ++
                        [{| text := inputText rendered; sender := user;
                            timestamp :=
                              toLocaleTimeString d Widget.timeOptions |}]))
              (SetInputText [] rest)).

Definition sent_by (who : Sender) (m : message) : bool :=
  match sender m, who with
  | user, user | bot, bot => true
  | _, _ => false
  end.

(** The number of records of the transcript sent by [who]. *)
Definition count (who : Sender) (l : list message) : nat :=
  length (List.filter (sent_by who) l).



(** The tree issues no request, reports nothing and throws nothing. *)
Fixpoint quiet (p : prog) : Prop :=
  match p with
  | Done => True
  | Throw _ => False
  | NewDate k => forall d, quiet (k d)
  | ReadApiKey k => forall key, quiet (k key)
  | SetIsExpanded _ k | SetMessages _ k | SetInputText _ k
  | SetFileContent _ k => quiet k
  | ConsoleError _ _ _ | AwaitFetch _ _ | AwaitJson _ _ => False
  | SetTimeout cb _ k => quiet cb /\ quiet k
  end.

Definition task_quiet (t : task) : Prop :=
  match t with
  | PendingFetch _ _ | PendingJson _ _ => False
  | Timer cb _ => quiet cb
  end.

(** The events that resume a parked continuation. *)
Definition is_settlement (e : event) : bool :=
  match e with
  | FetchSettled _ _ | JsonSettled _ | TimerFired _ => true
  | _ => false
  end.

(** Nothing has been requested or reported, and nothing pending will. *)
Definition silent (w : world) : Prop :=
  Forall task_quiet (tasks w) /\ network w = [] /\ console w = [].

(** A reply of the echo widget to a text that is not blank. *)
Definition echoes (m : message) : Prop :=
  is_hour_minute (timestamp m) = true
  /\ exists s, text m = lit "You said: " ++ s
               /\ is_empty_string (trim s) = false.

Definition stamped (m : message) : Prop :=
  is_hour_minute (timestamp m) = true.

(** An exchange of the completion-backed widget during which the widget
    is collapsed at [tc], after the send and before anything settles. *)
Definition exchange_collapsed (apiKey : option jsstring) (t1 tc t2 t3 : Date)
    (outcome : settled response) (w : world) : option world :=
  let i := length (tasks w) in
  match step apiKey Widget.handleSendMessage t1 SendRequested w with
  | None => None
  | Some w1 =>
      Some (advance apiKey Widget.handleSendMessage t3 (JsonSettled i)
              (advance apiKey Widget.handleSendMessage t2
                 (FetchSettled i outcome)
                 (advance apiKey Widget.handleSendMessage tc CloseClicked
                    w1)))
  end.

(** One submission of the echo widget followed to its end: the send at
    [t1], then [later] put in the input at [t2], then the timer firing at
    [t3]. *)
Definition echo_exchange (apiKey : option jsstring) (t1 t2 t3 : Date)
    (later : jsstring) (w : world) : option world :=
  let i := length (tasks w) in
  match step apiKey Echo.handleSendMessage t1 SendRequested w with
  | None => None
  | Some w1 =>
      Some (advance apiKey Echo.handleSendMessage t3 (TimerFired i)
              (advance apiKey Echo.handleSendMessage t2 (InputChanged later)
                 w1))
  end.

End Session.

(** ** Sessions in which a render can lag behind *)

Module Concurrent.
Import Host Runtime Exchange FileEffect Session.

(** A component: its send handler, and whether it has the effect that
    fetches the context document. *)
Record component : Type := {
  onSend : state -> prog;
  hasFileEffect : bool
}.

Definition completionWidget : component :=
  {| onSend := Widget.handleSendMessage; hasFileEffect := true |}.

Definition echoWidget : component :=
  {| onSend := Echo.handleSendMessage; hasFileEffect := false |}.

(** A mounted component between two turns of the event loop. [live] holds
    the state cells with every update made so far applied in order, and
    what the component has done to the outside. [closure] is the state of
    the last render React committed: the elements in the document are its
    elements, and their handlers are closed over it. [inFlight] counts the
    requests for the context document that have not settled. *)
Record page : Type := {
  live : world;
  closure : state;
  inFlight : nat
}.

(** A turn of the event loop. *)
Inductive turn : Type :=
| Dispatch (e : event)
| EffectRuns (fileUrl : option jsstring)
| FileSettles (fetched : settled text_response)
| Commit.

(** The handler that a user event reaches: the one the last render
    installed, if that render has the element at all. *)
Definition handled (c : component) (e : event) (rendered : state)
  : option prog :=
  match e with
  | OpenClicked =>
      if isExpanded rendered then None else Some (SetIsExpanded true Done)
  | CloseClicked =>
      if isExpanded rendered then Some (SetIsExpanded false Done) else None
  | InputChanged s =>
      if isExpanded rendered then Some (SetInputText s Done) else None
  | SendRequested =>
      if isExpanded rendered then Some (onSend c rendered) else None
  | FileTextLoaded _ | FetchSettled _ _ | JsonSettled _ | TimerFired _ => None
  end.

(** The render React commits at the end of a user event: the updates the
    handler made, applied to the state of the previous render. *)
Definition rerendered (apiKey : option jsstring) (now : Date) (p : prog)
    (rendered : state) (w : world) : state :=
  ui (run apiKey now p (with_ui (fun _ => rendered) w)).

(** One turn. A user event runs the handler of the last render and is
    rendered before the next turn. A continuation resumed by a settlement
    or a timer, and the chain of the file request, update the state cells
    without a render: React renders those updates in a later turn,
    [Commit], and a user event can come first. *)
Definition step (apiKey : option jsstring) (c : component) (now : Date)
    (t : turn) (p : page) : option page :=
  match t with
  | Commit =>
      Some {| live := live p; closure := ui (live p);
              inFlight := inFlight p |}
  | Dispatch e =>
      if is_settlement e then
        match Runtime.step apiKey (onSend c) now e (live p) with
        | Some w' =>
            Some {| live := w'; closure := closure p;
                    inFlight := inFlight p |}
        | None => None
        end
      else
        match handled c e (closure p) with
        | Some prog =>
            Some {| live := run apiKey now prog (live p);
                    closure :=
                      rerendered apiKey now prog (closure p) (live p);
                    inFlight := inFlight p |}
        | None => None
        end
  | EffectRuns fileUrl =>
      if hasFileEffect c then
        Some {| live := fileEffect fileUrl (live p); closure := closure p;
                inFlight :=
                  match fileUrl with
                  | Some (_ :: _) => S (inFlight p)
                  | Some [] | None => inFlight p
                  end |}
      else None
  | FileSettles fetched =>
      if hasFileEffect c then
        match inFlight p with
        | S n =>
            Some {| live := fileSettled apiKey now fetched (live p);
                    closure := closure p; inFlight := n |}
        | O => None
        end
      else None
  end.

Fixpoint steps (apiKey : option jsstring) (c : component)
    (ts : list (Date * turn)) (p : page) : option page :=
  match ts with
  | [] => Some p
  | (now, t) :: ts' =>
      match step apiKey c now t p with
      | Some p' => steps apiKey c ts' p'
      | None => None
      end
  end.

(** The component as mounted, before its effect has run. *)
Definition mountedPage : page :=
  {| live := mounted; closure := ui mounted; inFlight := 0 |}.

(** No send is dispatched while a reply waits to be rendered:
    [unrendered] tells whether a continuation has run since the last
    render. *)
Fixpoint sends_are_current (unrendered : bool) (ts : list (Date * turn))
  : bool :=
  match ts with
  | [] => true
  | (_, Commit) :: ts' => sends_are_current false ts'
  | (_, Dispatch e) :: ts' =>
      if is_send e then negb unrendered && sends_are_current unrendered ts'
      else sends_are_current (unrendered || is_settlement e) ts'
  | (_, _) :: ts' => sends_are_current unrendered ts'
  end.

(** The console reports of failed exchanges. *)
Definition exchange_reports (c : list (jsstring * js_error)) : nat :=
  length
    (List.filter
       (fun entry =>
          bool_decide (fst entry = lit "Error fetching bot response:"))
       c).

(** Every console report of the tree, on every path and in every
    callback, goes under [label]. *)
Fixpoint reports_as (label : jsstring) (p : prog) : Prop :=
  match p with
  | Done | Throw _ => True
  | NewDate k => forall d, reports_as label (k d)
  | ReadApiKey k => forall key, reports_as label (k key)
  | SetIsExpanded _ k | SetMessages _ k | SetInputText _ k
  | SetFileContent _ k => reports_as label k
  | ConsoleError l _ k => l = label /\ reports_as label k
  | AwaitFetch _ k => forall r, reports_as label (k r)
  | AwaitJson _ k => forall v, reports_as label (k v)
  | SetTimeout cb _ k => reports_as label cb /\ reports_as label k
  end.

Definition task_reports_as (label : jsstring) (t : task) : Prop :=
  match t with
  | PendingFetch _ k => forall r, reports_as label (k r)
  | PendingJson _ k => forall v, reports_as label (k v)
  | Timer cb _ => reports_as label cb
  end.

(** Every user record is accounted for once: by a bot record, by a
    pending continuation, or by the report of a failed exchange. *)
Definition balanced (P : message -> Prop) (w : world) : Prop :=
  Forall (fun t => task_owes P t
                   /\ task_reports_as (lit "Error fetching bot response:") t)
    (tasks w)
  /\ count user (messages (ui w)) =
       (count bot (messages (ui w)) + length (tasks w)
        + exchange_reports (console w))%nat.

(** Whether a reply waits to be rendered after the turn. *)
Definition carried (unrendered : bool) (t : turn) : bool :=
  match t with
  | Commit => false
  | Dispatch e => unrendered || is_settlement e
  | EffectRuns _ | FileSettles _ => unrendered
  end.

(** The state of the page between turns: the world is balanced, and
    unless a reply waits to be rendered the handlers see the transcript
    as it is. *)
Definition settled_page (unrendered : bool) (p : page) : Prop :=
  balanced stamped (live p)
  /\ (unrendered = false ->
      messages (closure p) = messages (ui (live p))).

(** Without a credential: nothing pending, no request but those for the
    context document, no reply, one report of a failed exchange for each
    record, and handlers that see the transcript as it is. *)
Definition keyless_page (p : page) : Prop :=
  tasks (live p) = []
  /\ Forall (fun req => method req = lit "GET") (network (live p))
  /\ Forall (fun m => sender m = user) (messages (ui (live p)))
  /\ exchange_reports (console (live p)) = length (messages (ui (live p)))
  /\ messages (closure p) = messages (ui (live p)).

(** What has been rendered is the beginning of the transcript, and what
    is pending only replies. *)
Definition rendered_page (p : page) : Prop :=
  replying (live p)
  /\ messages (closure p) `prefix_of` messages (ui (live p)).

(** The session of the race: ["one"] is sent and ["two"] typed; the reply
    to ["one"] arrives. *)
Definition replyArrives : list (Date * turn) :=
  [ (0, Dispatch OpenClicked);
    (1, Dispatch (InputChanged (lit "one")));
    (2, Dispatch SendRequested);
    (3, Dispatch (InputChanged (lit "two")));
    (4, Dispatch
          (FetchSettled 0
             (Fulfilled
                {| status := 200;
                   json :=
                     Fulfilled
                       (VObj [ (lit "choices",
                                VArr [ VObj [ (lit "text",
                                               VStr (lit "1")) ] ]) ]) |})));
    (5, Dispatch (JsonSettled 0)) ].

End Concurrent.

(** * Properties *)

Import Host Runtime Exchange Samples.

(** ** Trimming *)

Lemma trimStart_blank (s : jsstring) :
  forallb is_white_space s = true -> trimStart s = [].
Proof.
  induction s as [|c s IH]; simpl; [reflexivity|].
  intros H. apply andb_prop in H as [Hc Hs]. rewrite Hc. exact (IH Hs).
Qed.

Lemma trim_blank (s : jsstring) :
  forallb is_white_space s = true -> trim s = [].
Proof.
  intros H. unfold trim, trimEnd. rewrite (trimStart_blank s H). reflexivity.
Qed.

Lemma is_empty_string_false (s : jsstring) :
  s <> [] -> is_empty_string s = false.
Proof. destruct s; [congruence | reflexivity]. Qed.

Lemma is_empty_string_true (s : jsstring) :
  s = [] -> is_empty_string s = true.
Proof. intros ->. reflexivity. Qed.

(** ** What running a replying tree does to the world *)

Section Run.

Variable apiKey : option jsstring.

Lemma run_replies (p : prog) :
  replies p ->
  forall now w,
  exists bots spawned,
    messages (ui (run apiKey now p w)) = messages (ui w) ++ bots
    /\ Forall (fun m => sender m = bot) bots
    /\ tasks (run apiKey now p w) = tasks w ++ spawned
    /\ Forall task_replies spawned
    /\ isExpanded (ui (run apiKey now p w)) = isExpanded (ui w)
    /\ inputText (ui (run apiKey now p w)) = inputText (ui w)
    /\ fileContent (ui (run apiKey now p w)) = fileContent (ui w).
Proof.
  induction p as [ | e | k IH | k IH | b k IH | u k IH | s k IH | s k IH
                 | l e k IH | req k IH | r k IH | cb IHcb ms k IH ];
    simpl; intros Hp now w.
  - exists [], []. rewrite !app_nil_r. repeat split; auto.
  - exists [], []. rewrite !app_nil_r. repeat split; auto.
  - apply IH, Hp.
  - apply IH, Hp.
  - contradiction.
  - destruct Hp as [Hu Hk]. destruct u as [l | f]; [contradiction|].
    destruct Hu as (m & Hm & Hf).
    destruct (IH Hk now (with_ui (set_messages (Updater f)) w))
      as (bots & spawned & E1 & B & E2 & T & E3 & E4 & E5).
    exists (m :: bots), spawned. simpl in *.
    rewrite E1, Hf, <- app_assoc. repeat split; auto.
  - contradiction.
  - contradiction.
  - destruct (IH Hp now (report l e w))
      as (bots & spawned & E1 & B & E2 & T & E3 & E4 & E5).
    exists bots, spawned. repeat split; auto.
  - exists [], [PendingFetch req k]. rewrite app_nil_r. simpl.
    repeat split; auto.
  - exists [], [PendingJson r k]. rewrite app_nil_r. simpl.
    repeat split; auto.
  - destruct Hp as [Hcb Hk].
    destruct (IH Hk now (park (Timer cb ms) w))
      as (bots & spawned & E1 & B & E2 & T & E3 & E4 & E5).
    exists bots, (Timer cb ms :: spawned). simpl in *.
    rewrite E2, <- app_assoc. repeat split; auto.
Qed.

End Run.

(** ** The two send handlers *)

(** Splits on the next test or fallible read of a handler's tree. *)
Ltac next_case :=
  match goal with
  | |- context [ eval ?s _ ] => destruct s as [? | ?]
  | |- context [ Widget.present ?k ] => destruct (Widget.present k)
  | |- context [ if ?b then _ else _ ] => destruct b
  end.

Ltac walk := repeat (simpl; intros; try next_case); simpl; auto.

Lemma widget_rest_replies (fileContent inputText : jsstring) :
  exists rest,
    replies rest /\ catches rest /\
    forall rendered,
      Runtime.fileContent rendered = fileContent ->
      Runtime.inputText rendered = inputText ->
      is_empty_string (trim inputText) = false ->
      Widget.handleSendMessage rendered =
        NewDate (fun d =>
          SetMessages
            (Value (messages rendered ++
                      [{| text := inputText; sender := user;
                          timestamp := toLocaleTimeString d Widget.timeOptions |}]))
            (SetInputText [] rest)).
Proof.
  eexists. split; [|split].
  3: { intros rendered Hf Hi E. unfold Widget.handleSendMessage. cbv zeta.
       rewrite Hf, Hi, E. reflexivity. }
  - walk. split; [|exact I]. eexists. split; [|reflexivity]. reflexivity.
  - walk.
Qed.

Lemma widget_submits : submits Widget.timeOptions Widget.handleSendMessage.
Proof.
  intros rendered.
  destruct (is_empty_string (trim (inputText rendered))) eqn:E.
  - unfold Widget.handleSendMessage. rewrite E. reflexivity.
  - destruct (widget_rest_replies (fileContent rendered) (inputText rendered))
      as (rest & R & _ & Hrest).
    exists rest. split; [exact R|]. apply Hrest; auto.
Qed.

Lemma echo_submits : submits Echo.timeOptions Echo.handleSendMessage.
Proof.
  intros rendered.
  destruct (is_empty_string (trim (inputText rendered))) eqn:E;
    unfold Echo.handleSendMessage; rewrite E; [reflexivity|].
  eexists. split; [|reflexivity].
  simpl. split; [|exact I]. intros d. split; [|exact I].
  eexists. split; [|reflexivity]. reflexivity.
Qed.

Lemma widget_catches (rendered : state) :
  catches (Widget.handleSendMessage rendered).
Proof.
  destruct (is_empty_string (trim (inputText rendered))) eqn:E.
  - unfold Widget.handleSendMessage. rewrite E. exact I.
  - destruct (widget_rest_replies (fileContent rendered) (inputText rendered))
      as (rest & _ & C & Hrest).
    rewrite (Hrest rendered); auto. simpl. auto.
Qed.

(** ** The transcript under the event loop *)

Section Transcript.

Variable apiKey : option jsstring.
Variable opts : time_options.
Variable handler : state -> prog.
Hypothesis handler_submits : submits opts handler.

Abbreviation step := (Runtime.step apiKey handler).
Abbreviation steps := (Runtime.steps apiKey handler).

Lemma replying_unpark (i : nat) (w : world) :
  replying w -> replying (unpark i w).
Proof. unfold replying. simpl. apply Forall_delete. Qed.

Lemma run_replying (p : prog) (now : Date) (w : world) :
  replies p -> replying w ->
  replying (run apiKey now p w)
  /\ exists bots,
      messages (ui (run apiKey now p w)) = messages (ui w) ++ bots
      /\ Forall (fun m => sender m = bot) bots.
Proof.
  intros Hp Hw.
  destruct (run_replies apiKey p Hp now w)
    as (bots & spawned & E1 & B & E2 & T & _).
  split; [|eauto].
  unfold replying. rewrite E2. apply Forall_app. split; assumption.
Qed.

(** An event other than a send adds bot records at the end, or nothing. *)
Lemma step_other (now : Date) (e : event) (w w' : world) :
  is_send e = false -> replying w -> step now e w = Some w' ->
  replying w'
  /\ exists bots,
      messages (ui w') = messages (ui w) ++ bots
      /\ Forall (fun m => sender m = bot) bots.
Proof.
  intros He Hw Hs.
  assert (Hnil : forall w0 : world,
             exists bots, messages (ui w0) = messages (ui w0) ++ bots
                          /\ Forall (fun m => sender m = bot) bots).
  { intros w0. exists []. rewrite app_nil_r. auto. }
  destruct e as [ | | s | | s | i o | i | i ]; simpl in Hs;
    try discriminate He.
  - destruct (isExpanded (ui w)); inversion Hs; subst; simpl. split; auto.
  - destruct (isExpanded (ui w)); inversion Hs; subst; simpl. split; auto.
  - destruct (isExpanded (ui w)); inversion Hs; subst; simpl. split; auto.
  - inversion Hs; subst; simpl. split; auto.
  - destruct (tasks w !! i) as [[req k | r k | cb ms]|] eqn:Ht;
      inversion Hs; subst.
    pose proof (proj1 (Forall_lookup _ _) Hw i _ Ht) as Hk. simpl in Hk.
    exact (run_replying _ now (unpark i w) (Hk _) (replying_unpark i w Hw)).
  - destruct (tasks w !! i) as [[req k | r k | cb ms]|] eqn:Ht;
      inversion Hs; subst.
    pose proof (proj1 (Forall_lookup _ _) Hw i _ Ht) as Hk. simpl in Hk.
    exact (run_replying _ now (unpark i w) (Hk _) (replying_unpark i w Hw)).
  - destruct (tasks w !! i) as [[req k | r k | cb ms]|] eqn:Ht;
      inversion Hs; subst.
    pose proof (proj1 (Forall_lookup _ _) Hw i _ Ht) as Hk. simpl in Hk.
    exact (run_replying _ now (unpark i w) Hk (replying_unpark i w Hw)).
Qed.

(** A send of blank input changes nothing; any other send puts the user
    record, with the raw input as its text, at the end of the transcript,
    and only bot records can come after it. *)
Lemma step_send (now : Date) (w w' : world) :
  replying w -> step now SendRequested w = Some w' ->
  replying w'
  /\ isExpanded (ui w) = true
  /\ if is_empty_string (trim (inputText (ui w))) then w' = w
     else exists bots,
         messages (ui w') =
           messages (ui w) ++
             {| text := inputText (ui w); sender := user;
                timestamp := toLocaleTimeString now opts |} :: bots
         /\ Forall (fun m => sender m = bot) bots.
Proof.
  intros Hw Hs. simpl in Hs.
  destruct (isExpanded (ui w)) eqn:Hx; [|discriminate].
  inversion Hs as [Hw']; clear Hs.
  pose proof (handler_submits (ui w)) as Hh.
  destruct (is_empty_string (trim (inputText (ui w)))).
  - rewrite Hh. simpl. auto.
  - destruct Hh as (rest & Hrest & ->). simpl.
    match goal with
    | |- context [ run apiKey now rest ?w1 ] =>
        destruct (run_replying rest now w1 Hrest Hw) as (R & bots & E & B)
    end.
    split; [exact R|]. split; [reflexivity|].
    exists bots. split; [|exact B].
    rewrite E. simpl. rewrite <- app_assoc. reflexivity.
Qed.

(** From a world whose continuations only reply, any run of events keeps
    that, and extends the transcript at its end. *)
Lemma steps_extend (es : list (Date * event)) (w w' : world) :
  replying w -> steps es w = Some w' ->
  replying w' /\ messages (ui w) `prefix_of` messages (ui w').
Proof.
  revert w. induction es as [|[now e] es IH]; simpl; intros w Hw Hs.
  - inversion Hs; subst. split; [assumption | reflexivity].
  - destruct (step now e w) as [w1|] eqn:H1; [|discriminate].
    assert (replying w1 /\ messages (ui w) `prefix_of` messages (ui w1))
      as [R1 P1].
    { destruct (is_send e) eqn:He.
      - destruct e; try discriminate He.
        destruct (step_send now w w1 Hw H1) as (R & _ & Hm).
        split; [exact R|].
        destruct (is_empty_string (trim (inputText (ui w)))).
        + subst. reflexivity.
        + destruct Hm as (bots & -> & _). apply prefix_app_r. reflexivity.
      - destruct (step_other now e w w1 He Hw H1) as (R & bots & -> & _).
        split; [exact R|]. apply prefix_app_r. reflexivity. }
    destruct (IH w1 R1 Hs) as [R2 P2].
    split; [exact R2|]. etransitivity; eassumption.
Qed.

(** Without a further send, a run of events adds bot records only. *)
Lemma steps_other (es : list (Date * event)) (w w' : world) :
  forallb (fun te => negb (is_send (snd te))) es = true ->
  replying w -> steps es w = Some w' ->
  replying w'
  /\ exists bots,
      messages (ui w') = messages (ui w) ++ bots
      /\ Forall (fun m => sender m = bot) bots.
Proof.
  revert w. induction es as [|[now e] es IH]; simpl; intros w Hes Hw Hs.
  - inversion Hs; subst. split; [assumption|].
    exists []. rewrite app_nil_r. auto.
  - apply andb_prop in Hes as [He Hes].
    apply negb_true_iff in He.
    destruct (step now e w) as [w1|] eqn:H1; [|discriminate].
    destruct (step_other now e w w1 He Hw H1) as (R1 & b1 & E1 & B1).
    destruct (IH w1 Hes R1 Hs) as (R2 & b2 & E2 & B2).
    split; [exact R2|]. exists (b1 ++ b2). split.
    + rewrite E2, E1, <- app_assoc. reflexivity.
    + apply Forall_app. split; assumption.
Qed.

End Transcript.

(** ** Following one exchange *)

Section Resume.

Variable apiKey : option jsstring.
Variable handler : state -> prog.

Lemma resume_fetch (now : Date) (i : nat) (o : settled response)
    (req : request) (k : settled response -> prog) (w : world) :
  i = length (tasks w) ->
  advance apiKey handler now (FetchSettled i o) (park (PendingFetch req k) w)
  = run apiKey now (k o) w.
Proof.
  intros ->. destruct w as [u ts n c h]. unfold advance, step, park, unpark.
  simpl. rewrite list_lookup_middle by reflexivity.
  rewrite delete_middle, app_nil_r. reflexivity.
Qed.

Lemma resume_json (now : Date) (i : nat) (r : response)
    (k : settled value -> prog) (w : world) :
  i = length (tasks w) ->
  advance apiKey handler now (JsonSettled i) (park (PendingJson r k) w)
  = run apiKey now (k (json r)) w.
Proof.
  intros ->. destruct w as [u ts n c h]. unfold advance, step, park, unpark.
  simpl. rewrite list_lookup_middle by reflexivity.
  rewrite delete_middle, app_nil_r. reflexivity.
Qed.

Lemma idle_fetch (now : Date) (i : nat) (o : settled response) (w : world) :
  (length (tasks w) <= i)%nat ->
  advance apiKey handler now (FetchSettled i o) w = w.
Proof.
  intros H. unfold advance, step. rewrite lookup_ge_None_2 by exact H.
  reflexivity.
Qed.

Lemma idle_json (now : Date) (i : nat) (w : world) :
  (length (tasks w) <= i)%nat ->
  advance apiKey handler now (JsonSettled i) w = w.
Proof.
  intros H. unfold advance, step. rewrite lookup_ge_None_2 by exact H.
  reflexivity.
Qed.

End Resume.

(** Drives an exchange through its turns. *)
Ltac follow :=
  repeat first
    [ rewrite resume_fetch by reflexivity
    | rewrite resume_json by reflexivity
    | rewrite idle_fetch by (simpl; lia)
    | rewrite idle_json by (simpl; lia)
    | progress simpl run ].

(** Opens an exchange on non-blank input. *)
Ltac open_exchange Hx Hn :=
  unfold exchange, step; rewrite Hx; unfold Widget.handleSendMessage;
  cbv zeta; rewrite Hn; follow.

Lemma present_inv (apiKey : option jsstring) (key : jsstring) :
  Widget.present apiKey = Some key -> apiKey = Some key /\ key <> [].
Proof.
  destruct apiKey as [[|c k]|]; simpl; intros H; inversion H; subst.
  split; [reflexivity | discriminate].
Qed.

(** ** Claims *)

(** C1, as amended. For every submitted input whose trimmed form is
    non-empty, if the credential is present, the HTTP status is ok, and the
    payload holds a non-empty choices array whose first entry has a string
    [text], then the exchange appends the user record and then exactly one
    bot record, whose text is that string trimmed. *)
Theorem completion_appends_trimmed_reply
    (apiKey : option jsstring) (key : jsstring) (t1 t2 t3 : Date)
    (r : response) (data first : value) (others : list value)
    (s : jsstring) (w : world) :
  isExpanded (ui w) = true ->
  is_empty_string (trim (inputText (ui w))) = false ->
  Widget.present apiKey = Some key ->
  ok r = true ->
  json r = Fulfilled data ->
  get data (lit "choices") = Fulfilled (VArr (first :: others)) ->
  get first (lit "text") = Fulfilled (VStr s) ->
  exists w',
    exchange apiKey t1 t2 t3 (Fulfilled r) w = Some w'
    /\ messages (ui w') =
         messages (ui w) ++
           [ {| text := inputText (ui w); sender := user;
                timestamp := toLocaleTimeString t1 Widget.timeOptions |};
             {| text := trim s; sender := bot;
                timestamp := toLocaleTimeString t3 Widget.timeOptions |} ]
    /\ tasks w' = tasks w.
Proof.
  intros Hx Hn Hk Hok Hj Hc Ht.
  open_exchange Hx Hn. rewrite Hk. follow. rewrite Hok. follow.
  rewrite Hj. follow. rewrite Hc. follow. rewrite Ht. follow.
  eexists. split; [reflexivity|]. simpl. rewrite <- app_assoc.
  split; reflexivity.
Qed.

(** The example of C1: ["hello"] answered by [" hi there "]. *)
Lemma hello_hi_there :
  exists w',
    exchange sampleKey 0 1 2
      (Fulfilled (responded 200 (completionPayload (lit " hi there "))))
      (typed (lit "hello")) = Some w'
    /\ map shown (messages (ui w')) =
         [ (lit "hello", user); (lit "hi there", bot) ].
Proof.
  destruct (completion_appends_trimmed_reply
              sampleKey (lit "sk-test") 0 1 2
              (responded 200 (completionPayload (lit " hi there ")))
              (completionPayload (lit " hi there "))
              (VObj [ (lit "text", VStr (lit " hi there ")) ]) []
              (lit " hi there ") (typed (lit "hello")))
    as (w' & E & M & _); try reflexivity.
  exists w'. split; [exact E|]. rewrite M. reflexivity.
Defined.

(** C1 as stated fails: a non-empty choices array whose entry has no
    [text] passes every condition the claim lists, and no bot record is
    appended. *)
Lemma choices_without_text_no_reply :
  ~ (forall (apiKey : option jsstring) (key : jsstring) (t1 t2 t3 : Date)
            (r : response) (data first : value) (others : list value)
            (w : world),
        isExpanded (ui w) = true ->
        is_empty_string (trim (inputText (ui w))) = false ->
        Widget.present apiKey = Some key ->
        ok r = true ->
        json r = Fulfilled data ->
        get data (lit "choices") = Fulfilled (VArr (first :: others)) ->
        exists w' u b,
          exchange apiKey t1 t2 t3 (Fulfilled r) w = Some w'
          /\ messages (ui w') = messages (ui w) ++ [u; b]
          /\ sender b = bot).
Proof.
  intros claim.
  destruct (claim sampleKey (lit "sk-test") 0 1 2
              (responded 200 textlessPayload) textlessPayload
              (VObj []) [] (typed (lit "hello")))
    as (w' & u & b & E & M & _); try reflexivity.
  vm_compute in E. inversion E; subst. discriminate M.
Qed.

(** Splits on the next test or fallible read an exchange comes to. *)
Ltac next_read :=
  match goal with
  | |- context [ call_trim ?v ] => destruct v
  | |- context [ eval ?s _ ] =>
      let E := fresh "E" in destruct s eqn:E
  | |- context [ if ?b then _ else _ ] =>
      let E := fresh "E" in destruct b eqn:E
  end.

(** Closes an exchange that ended in one console report. *)
Ltac reported :=
  do 2 eexists; split; [reflexivity|]; simpl;
  rewrite ?app_nil_r; repeat split; reflexivity.

(** C2. For every submitted non-empty input, if the exchange fails (the
    credential is missing, the HTTP status is not a success, or the payload
    lacks the completion field), then no bot record is appended, the user
    record stays as appended, the failure goes to the console only, and no
    request beyond the first is issued: nothing is left pending. *)
Theorem failed_exchange_is_silent
    (apiKey : option jsstring) (t1 t2 t3 : Date)
    (outcome : settled response) (w : world) :
  isExpanded (ui w) = true ->
  is_empty_string (trim (inputText (ui w))) = false ->
  fails apiKey outcome ->
  exists w' e,
    exchange apiKey t1 t2 t3 outcome w = Some w'
    /\ messages (ui w') =
         messages (ui w) ++
           [ {| text := inputText (ui w); sender := user;
                timestamp := toLocaleTimeString t1 Widget.timeOptions |} ]
    /\ console w' =
         console w ++ [ (lit "Error fetching bot response:", e) ]
    /\ network w' =
         network w ++
           match Widget.present apiKey with
           | Some key =>
               [ Widget.completionRequest key (fileContent (ui w))
                   (inputText (ui w)) ]
           | None => []
           end
    /\ tasks w' = tasks w
    /\ unhandled w' = unhandled w.
Proof.
  intros Hx Hn [Hk | [(r & -> & Hok) | (r & data & -> & Hok & Hj & Hcf)]].
  - open_exchange Hx Hn. rewrite Hk. follow. reported.
  - open_exchange Hx Hn.
    destruct (Widget.present apiKey) as [key|]; follow; [|reported].
    rewrite Hok. follow. destruct (json r) as [errorData | e]; follow;
      [|reported].
    repeat (next_read; follow); reported.
  - open_exchange Hx Hn.
    destruct (Widget.present apiKey) as [key|]; follow; [|reported].
    rewrite Hok. follow. rewrite Hj. follow.
    unfold completion_field in Hcf. revert Hcf.
    repeat (next_read; follow); simpl; intros Hcf;
      first [ discriminate Hcf | reported ].
Qed.

(** The example of C2: HTTP 500. *)
Lemma http_500_is_silent :
  exists w',
    exchange sampleKey 0 1 2
      (Fulfilled (responded 500 (errorPayload (lit "overloaded"))))
      (typed (lit "hello")) = Some w'
    /\ map shown (messages (ui w')) = [ (lit "hello", user) ]
    /\ console w' =
         [ (lit "Error fetching bot response:",
            ApiError 500 (VStr (lit "overloaded"))) ]
    /\ length (network w') = 1%nat
    /\ tasks w' = [].
Proof.
  destruct (failed_exchange_is_silent sampleKey 0 1 2
              (Fulfilled (responded 500 (errorPayload (lit "overloaded"))))
              (typed (lit "hello")))
    as (w' & e & E & M & C & N & T & _).
  - reflexivity.
  - reflexivity.
  - right. left. eexists. split; reflexivity.
  - exists w'. split; [exact E|]. rewrite M, N, T.
    vm_compute in E. inversion E; subst.
    repeat split; reflexivity.
Defined.

(** C6, as amended. For every submitted non-empty input sent while the
    credential is present, exactly one request is issued, whatever the
    exchange comes to: a POST whose body holds the model identifier, the
    prompt built from the context document and the raw input under the
    fixed template, the maximum output length and the temperature, and
    whose authorization header is the bearer form of the credential. *)
Theorem one_post_per_send
    (apiKey : option jsstring) (key : jsstring) (t1 t2 t3 : Date)
    (outcome : settled response) (w : world) :
  isExpanded (ui w) = true ->
  is_empty_string (trim (inputText (ui w))) = false ->
  Widget.present apiKey = Some key ->
  exists w' req,
    exchange apiKey t1 t2 t3 outcome w = Some w'
    /\ network w' = network w ++ [req]
    /\ tasks w' = tasks w
    /\ apiKey = Some key
    /\ url req = lit "https://api.openai.com/v1/completions"
    /\ method req = lit "POST"
    /\ In (lit "Authorization", lit "Bearer " ++ key) (headers req)
    /\ body req =
         VObj
           [ (lit "model", VStr (lit "text-davinci-003"));
             (lit "prompt",
              VStr (lit "Context: " ++ fileContent (ui w) ++ [10; 10]%N
                    ++ lit "User: " ++ inputText (ui w) ++ [10; 10]%N
                    ++ lit "Bot:"));
             (lit "max_tokens", VNum (Finite 150));
             (lit "temperature", VNum (Finite (7 # 10))) ].
Proof.
  intros Hx Hn Hk. destruct (present_inv apiKey key Hk) as [Ha _].
  assert (Hreq :
    forall w' : world,
      network w' =
        network w ++ [ Widget.completionRequest key (fileContent (ui w))
                         (inputText (ui w)) ] ->
      tasks w' = tasks w ->
      exists w'' req,
        Some w' = Some w''
        /\ network w'' = network w ++ [req]
        /\ tasks w'' = tasks w
        /\ apiKey = Some key
        /\ url req = lit "https://api.openai.com/v1/completions"
        /\ method req = lit "POST"
        /\ In (lit "Authorization", lit "Bearer " ++ key) (headers req)
        /\ body req =
             VObj
               [ (lit "model", VStr (lit "text-davinci-003"));
                 (lit "prompt",
                  VStr (lit "Context: " ++ fileContent (ui w) ++ [10; 10]%N
                        ++ lit "User: " ++ inputText (ui w) ++ [10; 10]%N
                        ++ lit "Bot:"));
                 (lit "max_tokens", VNum (Finite 150));
                 (lit "temperature", VNum (Finite (7 # 10))) ]).
  { intros w' N T. exists w'. eexists. split; [reflexivity|].
    split; [exact N|]. split; [exact T|]. split; [exact Ha|].
    simpl. repeat split; auto. }
  open_exchange Hx Hn. rewrite Hk. follow.
  destruct outcome as [r | e]; follow; [|apply Hreq; reflexivity].
  destruct (ok r); follow.
  - destruct (json r) as [data | e]; follow; [|apply Hreq; reflexivity].
    repeat (next_read; follow); apply Hreq; reflexivity.
  - destruct (json r) as [data | e]; follow; [|apply Hreq; reflexivity].
    repeat (next_read; follow); apply Hreq; reflexivity.
Qed.

(** An instance of C6: the one request of ["hello"], here unanswered. *)
Lemma hello_posts_once :
  exists w',
    exchange sampleKey 0 1 2 (Rejected NetworkError) (typed (lit "hello"))
      = Some w'
    /\ network w' = [ Widget.completionRequest (lit "sk-test") [] (lit "hello") ]
    /\ tasks w' = [].
Proof.
  destruct (one_post_per_send sampleKey (lit "sk-test") 0 1 2
              (Rejected NetworkError) (typed (lit "hello")))
    as (w' & req & E & N & T & _); try reflexivity.
  exists w'. split; [exact E|]. rewrite T.
  vm_compute in E. inversion E; subst. split; reflexivity.
Defined.

(** C6 as stated fails: with the credential missing, a submitted non-empty
    input issues no request at all. *)
Lemma no_credential_no_request :
  ~ (forall (apiKey : option jsstring) (t1 t2 t3 : Date)
            (outcome : settled response) (w : world),
        isExpanded (ui w) = true ->
        is_empty_string (trim (inputText (ui w))) = false ->
        exists w' req,
          exchange apiKey t1 t2 t3 outcome w = Some w'
          /\ network w' = network w ++ [req]).
Proof.
  intros claim.
  destruct (claim None 0 1 2 (Rejected NetworkError) (typed (lit "hello")))
    as (w' & req & E & N); try reflexivity.
  vm_compute in E. inversion E; subst. discriminate N.
Qed.

(** How an exchange ends, whatever the credential, the settlement of the
    request and the payload are: in a reply, or in one console report. *)
Lemma exchange_ends
    (apiKey : option jsstring) (t1 t2 t3 : Date)
    (outcome : settled response) (w : world) :
  isExpanded (ui w) = true ->
  is_empty_string (trim (inputText (ui w))) = false ->
  exists w',
    exchange apiKey t1 t2 t3 outcome w = Some w'
    /\ unhandled w' = unhandled w
    /\ tasks w' = tasks w
    /\ let u := {| text := inputText (ui w); sender := user;
                   timestamp := toLocaleTimeString t1 Widget.timeOptions |}
       in
       (exists key r data s,
           Widget.present apiKey = Some key
           /\ outcome = Fulfilled r /\ ok r = true
           /\ json r = Fulfilled data
           /\ completion_field data = Some s
           /\ messages (ui w') =
                messages (ui w) ++
                  [ u; {| text := trim s; sender := bot;
                          timestamp :=
                            toLocaleTimeString t3 Widget.timeOptions |} ]
           /\ console w' = console w)
       \/ (exists e,
              messages (ui w') = messages (ui w) ++ [u]
              /\ console w' =
                   console w ++ [ (lit "Error fetching bot response:", e) ]).
Proof.
  intros Hx Hn.
  assert (Hfail :
    forall (w' : world) (e : js_error),
      unhandled w' = unhandled w -> tasks w' = tasks w ->
      messages (ui w') =
        messages (ui w) ++
          [ {| text := inputText (ui w); sender := user;
               timestamp := toLocaleTimeString t1 Widget.timeOptions |} ] ->
      console w' = console w ++ [ (lit "Error fetching bot response:", e) ] ->
      exists w'',
        Some w' = Some w''
        /\ unhandled w'' = unhandled w
        /\ tasks w'' = tasks w
        /\ let u := {| text := inputText (ui w); sender := user;
                       timestamp :=
                         toLocaleTimeString t1 Widget.timeOptions |} in
           (exists key r data s,
               Widget.present apiKey = Some key
               /\ outcome = Fulfilled r /\ ok r = true
               /\ json r = Fulfilled data
               /\ completion_field data = Some s
               /\ messages (ui w'') =
                    messages (ui w) ++
                      [ u; {| text := trim s; sender := bot;
                              timestamp :=
                                toLocaleTimeString t3 Widget.timeOptions |} ]
               /\ console w'' = console w)
           \/ (exists e,
                  messages (ui w'') = messages (ui w) ++ [u]
                  /\ console w'' =
                       console w ++
                         [ (lit "Error fetching bot response:", e) ])).
  { intros w' e U T M C. exists w'. repeat split; auto. right. eauto. }
  open_exchange Hx Hn.
  destruct (Widget.present apiKey) as [key|] eqn:Hk; follow;
    [|eapply Hfail; reflexivity].
  destruct outcome as [r | e]; follow; [|eapply Hfail; reflexivity].
  destruct (ok r) eqn:Hok; follow;
    (destruct (json r) as [data | e] eqn:Hj; follow;
     [|eapply Hfail; reflexivity]).
  - assert (Hcf : completion_field data = completion_field data)
      by reflexivity.
    unfold completion_field at 2 in Hcf. revert Hcf.
    repeat (next_read; follow); simpl; intros Hcf;
      try (eapply Hfail; reflexivity).
    eexists. split; [reflexivity|]. simpl. repeat split.
    left. exists key, r, data, s. rewrite <- app_assoc.
    repeat split; auto.
  - repeat (next_read; follow); eapply Hfail; reflexivity.
Qed.

(** C10. Submitting a non-empty input never lets an exception escape: the
    handler's tree has no uncaught throw on any path, and whatever the
    credential, the settlement of the request and the payload are, the
    exchange ends with nothing unhandled and nothing pending, either in a
    reply (which takes the credential, an ok status, a parsed body and its
    completion field) or in one console report and no bot record. *)
Theorem send_never_throws
    (apiKey : option jsstring) (t1 t2 t3 : Date)
    (outcome : settled response) (w : world) :
  isExpanded (ui w) = true ->
  is_empty_string (trim (inputText (ui w))) = false ->
  catches (Widget.handleSendMessage (ui w))
  /\ exists w',
      exchange apiKey t1 t2 t3 outcome w = Some w'
      /\ unhandled w' = unhandled w
      /\ tasks w' = tasks w
      /\ let u := {| text := inputText (ui w); sender := user;
                     timestamp := toLocaleTimeString t1 Widget.timeOptions |}
         in
         (exists key r data s,
             Widget.present apiKey = Some key
             /\ outcome = Fulfilled r /\ ok r = true
             /\ json r = Fulfilled data
             /\ completion_field data = Some s
             /\ messages (ui w') =
                  messages (ui w) ++
                    [ u; {| text := trim s; sender := bot;
                            timestamp :=
                              toLocaleTimeString t3 Widget.timeOptions |} ]
             /\ console w' = console w)
         \/ (exists e,
                messages (ui w') = messages (ui w) ++ [u]
                /\ console w' =
                     console w ++ [ (lit "Error fetching bot response:", e) ]).
Proof.
  intros Hx Hn. split; [apply widget_catches | apply exchange_ends; assumption].
Qed.

(** An instance of C10: a 502 whose body is not JSON. The rejection of
    the body read is what the console gets. *)
Lemma bad_gateway_is_caught :
  exists w',
    exchange sampleKey 0 1 2
      (Fulfilled {| status := 502; json := Rejected SyntaxError |})
      (typed (lit "hello")) = Some w'
    /\ unhandled w' = []
    /\ console w' = [ (lit "Error fetching bot response:", SyntaxError) ]
    /\ map shown (messages (ui w')) = [ (lit "hello", user) ].
Proof.
  destruct (send_never_throws sampleKey 0 1 2
              (Fulfilled {| status := 502; json := Rejected SyntaxError |})
              (typed (lit "hello")))
    as (_ & w' & E & U & _); try reflexivity.
  exists w'. split; [exact E|]. rewrite U.
  vm_compute in E. inversion E; subst. repeat split; reflexivity.
Defined.

(** ** Timestamps *)

Lemma pad2_two_digits (bound : N) (n : Z) :
  0 <= n < Z.of_N bound -> (bound <= 100)%N ->
  two_digits_below bound (digit (n / 10)) (digit (n mod 10)) = true.
Proof.
  intros Hn Hb. unfold two_digits_below, is_digit, digit.
  assert (0 <= n / 10 < 10) by (split; [apply Z.div_pos | apply Z.div_lt_upper_bound]; lia).
  assert (0 <= n mod 10 < 10) by (apply Z.mod_pos_bound; lia).
  assert (n = 10 * (n / 10) + n mod 10) by (apply Z.div_mod; lia).
  rewrite !andb_true_iff, !N.leb_le, N.ltb_lt. lia.
Qed.

Lemma time_is_hour_minute (d : Date) :
  is_hour_minute (toLocaleTimeString d Widget.timeOptions) = true.
Proof.
  unfold toLocaleTimeString, Widget.timeOptions. simpl.
  unfold is_hour_minute, pad2. simpl.
  rewrite !andb_true_iff. repeat split.
  - apply pad2_two_digits; [|lia].
    unfold getHours. apply Z.mod_pos_bound. lia.
  - apply pad2_two_digits; [|lia].
    unfold getMinutes. apply Z.mod_pos_bound. lia.
Qed.

(** C8. Every record carries a timestamp read from the clock in the turn
    that creates the record (the send for the user record, the end of the
    body read for the bot record) and formatted with a two-digit hour, a
    two-digit minute and [hour12: false]: two digits of an hour below 24, a
    colon, two digits of a minute, no seconds and no day period. The
    transcript is in order of insertion whatever the two clock readings
    are. *)
Theorem timestamps_are_hour_minute
    (apiKey : option jsstring) (t1 t2 t3 : Date)
    (outcome : settled response) (w : world) :
  isExpanded (ui w) = true ->
  is_empty_string (trim (inputText (ui w))) = false ->
  let format (d : Date) :=
    toLocaleTimeString d
      {| hour := Some two_digit; minute := Some two_digit; second := None;
         hour12 := Some false |} in
  exists w' u bots,
    exchange apiKey t1 t2 t3 outcome w = Some w'
    /\ messages (ui w') = messages (ui w) ++ u :: bots
    /\ sender u = user
    /\ timestamp u = format t1
    /\ Forall (fun b => sender b = bot /\ timestamp b = format t3) bots
    /\ Forall (fun m => is_hour_minute (timestamp m) = true) (u :: bots).
Proof.
  intros Hx Hn format.
  destruct (exchange_ends apiKey t1 t2 t3 outcome w Hx Hn)
    as (w' & E & _ & _ & [(key & r & data & s & _ & _ & _ & _ & _ & M & _)
                         | (e & M & _)]).
  - exists w'. do 2 eexists. split; [exact E|]. split; [exact M|].
    repeat split; simpl; auto.
    repeat constructor; simpl; apply time_is_hour_minute.
  - exists w'. do 2 eexists. split; [exact E|]. split; [exact M|].
    repeat split; simpl; auto.
    repeat constructor; simpl; apply time_is_hour_minute.
Qed.

(** An instance of C8: sent at 23:59, answered at 00:01 of the next day.
    The record stamped 00:01 follows the one stamped 23:59. *)
Lemma stamps_around_midnight :
  exists w',
    exchange sampleKey 86340000 86400000 86460000
      (Fulfilled (responded 200 (completionPayload (lit "late"))))
      (typed (lit "hello")) = Some w'
    /\ map timestamp (messages (ui w')) = [ lit "23:59"; lit "00:01" ].
Proof.
  destruct (timestamps_are_hour_minute sampleKey 86340000 86400000 86460000
              (Fulfilled (responded 200 (completionPayload (lit "late"))))
              (typed (lit "hello")))
    as (w' & u & bots & E & _); try reflexivity.
  exists w'. split; [exact E|].
  vm_compute in E. inversion E; subst. reflexivity.
Defined.

(** C9. For every input whose trimmed form is non-empty, the user record
    that a send appends has the raw input as its text, untrimmed. *)
Theorem user_text_is_raw
    (apiKey : option jsstring) (now : Date) (w : world) :
  isExpanded (ui w) = true ->
  is_empty_string (trim (inputText (ui w))) = false ->
  exists w',
    step apiKey Widget.handleSendMessage now SendRequested w = Some w'
    /\ messages (ui w') =
         messages (ui w) ++
           [ {| text := inputText (ui w); sender := user;
                timestamp := toLocaleTimeString now Widget.timeOptions |} ].
Proof.
  intros Hx Hn. unfold step. rewrite Hx. unfold Widget.handleSendMessage.
  cbv zeta. rewrite Hn. simpl run.
  destruct (Widget.present apiKey); simpl run;
    eexists; (split; [reflexivity|]); reflexivity.
Qed.

(** An instance of C9: the blanks around ["hi"] are kept. *)
Lemma padded_hi_is_kept :
  exists w',
    step sampleKey Widget.handleSendMessage 0 SendRequested
      (typed (lit "  hi ")) = Some w'
    /\ map shown (messages (ui w')) = [ (lit "  hi ", user) ]
    /\ trim (lit "  hi ") = lit "hi".
Proof.
  destruct (user_text_is_raw sampleKey 0 (typed (lit "  hi ")))
    as (w' & E & M); try reflexivity.
  exists w'. split; [exact E|]. rewrite M. split; reflexivity.
Defined.

(** C5. For every input that is empty or made of white space only, a send
    leaves the widget as it was: no record, no request, no report, nothing
    pending. Both components. *)
Theorem blank_input_is_ignored
    (apiKey : option jsstring) (now : Date) (w : world) :
  isExpanded (ui w) = true ->
  forallb is_white_space (inputText (ui w)) = true ->
  step apiKey Widget.handleSendMessage now SendRequested w = Some w
  /\ step apiKey Echo.handleSendMessage now SendRequested w = Some w.
Proof.
  intros Hx Hb. apply trim_blank in Hb.
  unfold step. rewrite Hx.
  unfold Widget.handleSendMessage, Echo.handleSendMessage. cbv zeta.
  rewrite Hb. split; reflexivity.
Qed.

(** An instance of C5: a space, a tab and a line feed. *)
Lemma blanks_are_ignored :
  step sampleKey Widget.handleSendMessage 0 SendRequested
    (typed [32; 9; 10]%N) = Some (typed [32; 9; 10]%N)
  /\ step sampleKey Echo.handleSendMessage 0 SendRequested
       (typed [32; 9; 10]%N) = Some (typed [32; 9; 10]%N).
Proof.
  apply (blank_input_is_ignored sampleKey 0 (typed [32; 9; 10]%N));
    reflexivity.
Defined.

(** ** Order of the transcript *)

Lemma mounted_replying : replying mounted.
Proof. constructor. Qed.

Lemma either_submits (handler : state -> prog) :
  handler = Widget.handleSendMessage \/ handler = Echo.handleSendMessage ->
  submits Widget.timeOptions handler.
Proof. intros [-> | ->]; [apply widget_submits | apply echo_submits]. Qed.

(** When every send is handled by the render of the current state, as in
    the sessions of [Runtime.steps]: in either component a send of input
    whose trimmed form is non-empty appends exactly one user record, and
    whatever follows it up to the next send, in any order of toggles,
    typing, settlements and timers, is bot records placed after it. *)
Lemma user_record_comes_first
    (apiKey : option jsstring) (handler : state -> prog)
    (before after : list (Date * event)) (now : Date) (w w' : world) :
  handler = Widget.handleSendMessage \/ handler = Echo.handleSendMessage ->
  steps apiKey handler before mounted = Some w ->
  is_empty_string (trim (inputText (ui w))) = false ->
  forallb (fun te => negb (is_send (snd te))) after = true ->
  steps apiKey handler ((now, SendRequested) :: after) w = Some w' ->
  exists bots,
    messages (ui w') =
      messages (ui w) ++
        {| text := inputText (ui w); sender := user;
           timestamp := toLocaleTimeString now Widget.timeOptions |} :: bots
    /\ Forall (fun m => sender m = bot) bots.
Proof.
  intros Hh Hb Hn Ha Hs. apply either_submits in Hh.
  destruct (steps_extend apiKey _ handler Hh before mounted w
              mounted_replying Hb) as [Rw _].
  change (steps apiKey handler ((now, SendRequested) :: after) w)
    with (match step apiKey handler now SendRequested w with
          | Some w1 => steps apiKey handler after w1
          | None => None
          end) in Hs.
  destruct (step apiKey handler now SendRequested w) as [w1|] eqn:H1;
    [|discriminate].
  destruct (step_send apiKey _ handler Hh now w w1 Rw H1) as (R1 & _ & Hm).
  rewrite Hn in Hm. destruct Hm as (b1 & E1 & B1).
  destruct (steps_other apiKey handler after w1 w' Ha R1 Hs)
    as (_ & b2 & E2 & B2).
  exists (b1 ++ b2). split.
  - rewrite E2, E1, <- app_assoc. reflexivity.
  - apply Forall_app. split; assumption.
Qed.

(** When every send is handled by the render of the current state, as in
    the sessions of [Runtime.steps]: in either component every event (a
    send, a settlement, a timer, a toggle, typing), in any order, extends
    the transcript at its end. *)
Lemma transcript_is_append_only
    (apiKey : option jsstring) (handler : state -> prog)
    (before after : list (Date * event)) (w w' : world) :
  handler = Widget.handleSendMessage \/ handler = Echo.handleSendMessage ->
  steps apiKey handler before mounted = Some w ->
  steps apiKey handler after w = Some w' ->
  messages (ui w) `prefix_of` messages (ui w')
  /\ forall (i : nat) (m : message),
      messages (ui w) !! i = Some m -> messages (ui w') !! i = Some m.
Proof.
  intros Hh Hb Ha. apply either_submits in Hh.
  destruct (steps_extend apiKey _ handler Hh before mounted w
              mounted_replying Hb) as [Rw _].
  destruct (steps_extend apiKey _ handler Hh after w w' Rw Ha) as [_ P].
  split; [exact P|].
  intros i m Hi. eapply prefix_lookup_Some; eassumption.
Qed.

(** C7. A run of expand and collapse clicks, of any length, leaves the
    message sequence, the pending input and the context document as they
    were, and nothing else of the widget moves either. *)
Theorem toggling_keeps_the_rest
    (apiKey : option jsstring) (handler : state -> prog)
    (clicks : list (Date * event)) (w w' : world) :
  forallb (fun te => is_toggle (snd te)) clicks = true ->
  steps apiKey handler clicks w = Some w' ->
  messages (ui w') = messages (ui w)
  /\ inputText (ui w') = inputText (ui w)
  /\ fileContent (ui w') = fileContent (ui w)
  /\ tasks w' = tasks w
  /\ network w' = network w
  /\ console w' = console w.
Proof.
  revert w. induction clicks as [|[now e] clicks IH]; simpl; intros w Hc Hs.
  - inversion Hs; subst. repeat split.
  - apply andb_prop in Hc as [He Hc].
    destruct e; try discriminate He; simpl in Hs;
      destruct (isExpanded (ui w)); try discriminate Hs;
      destruct (IH _ Hc Hs) as (M & I & F & T & N & C);
      simpl in *; repeat split; assumption.
Qed.

(** In both components: the widget is collapsed while the request is in
    flight, and the echo timer fires after more typing. *)
Lemma hello_then_reply :
  (exists w',
      steps sampleKey Widget.handleSendMessage
        [ (1, SendRequested); (2, CloseClicked);
          (3, FetchSettled 0
                (Fulfilled (responded 200 (completionPayload (lit "hi")))));
          (4, JsonSettled 0) ]
        (typed (lit "hello")) = Some w'
      /\ map shown (messages (ui w')) = [ (lit "hello", user); (lit "hi", bot) ])
  /\ (exists w',
        steps None Echo.handleSendMessage
          [ (1, SendRequested); (2, InputChanged (lit "more"));
            (3, TimerFired 0) ]
          (typed (lit "hello")) = Some w'
        /\ map shown (messages (ui w')) =
             [ (lit "hello", user); (lit "You said: hello", bot) ]).
Proof.
  split.
  - destruct (steps sampleKey Widget.handleSendMessage _ (typed (lit "hello")))
      as [w'|] eqn:E; [|vm_compute in E; discriminate E].
    pose proof (user_record_comes_first sampleKey Widget.handleSendMessage
                [ (0, OpenClicked); (0, InputChanged (lit "hello")) ]
                [ (2, CloseClicked);
                  (3, FetchSettled 0
                        (Fulfilled
                           (responded 200 (completionPayload (lit "hi")))));
                  (4, JsonSettled 0) ]
                1 (typed (lit "hello")) w'
                (or_introl eq_refl) eq_refl eq_refl eq_refl E)
      as (bots & M & B).
    exists w'. split; [reflexivity|].
    vm_compute in E. inversion E; subst. reflexivity.
  - destruct (steps None Echo.handleSendMessage _ (typed (lit "hello")))
      as [w'|] eqn:E; [|vm_compute in E; discriminate E].
    pose proof (user_record_comes_first None Echo.handleSendMessage
                [ (0, OpenClicked); (0, InputChanged (lit "hello")) ]
                [ (2, InputChanged (lit "more")); (3, TimerFired 0) ]
                1 (typed (lit "hello")) w'
                (or_intror eq_refl) eq_refl eq_refl eq_refl E)
      as (bots & M & B).
    exists w'. split; [reflexivity|].
    vm_compute in E. inversion E; subst. reflexivity.
Defined.

(** After a first exchange, two requests in flight, the later one
    answered first. The transcript of the first exchange is
    a prefix of the final one, whose replies are in order of completion. *)
Lemma racing_replies_append :
  exists w w',
    steps sampleKey Widget.handleSendMessage
      [ (0, OpenClicked); (0, InputChanged (lit "one")); (1, SendRequested);
        (2, FetchSettled 0
              (Fulfilled (responded 200 (completionPayload (lit "1")))));
        (3, JsonSettled 0) ]
      mounted = Some w
    /\ steps sampleKey Widget.handleSendMessage
         [ (4, InputChanged (lit "two")); (5, SendRequested);
           (6, InputChanged (lit "three")); (7, SendRequested);
           (8, FetchSettled 1
                 (Fulfilled (responded 200 (completionPayload (lit "3")))));
           (9, JsonSettled 1);
           (10, FetchSettled 0
                  (Fulfilled (responded 200 (completionPayload (lit "2")))));
           (11, JsonSettled 0) ]
         w = Some w'
    /\ map shown (messages (ui w)) = [ (lit "one", user); (lit "1", bot) ]
    /\ map shown (messages (ui w')) =
         [ (lit "one", user); (lit "1", bot);
           (lit "two", user); (lit "three", user);
           (lit "3", bot); (lit "2", bot) ]
    /\ messages (ui w) `prefix_of` messages (ui w').
Proof.
  destruct (steps sampleKey Widget.handleSendMessage _ mounted)
    as [w|] eqn:E; [|vm_compute in E; discriminate E].
  pose proof E as Hw. vm_compute in Hw.
  injection Hw as Hw. rewrite <- Hw in E |- *. clear w Hw.
  match goal with
  | |- exists w1 w', Some ?w0 = Some w1 /\ _ => exists w0
  end.
  match goal with
  | |- exists w', _ /\ steps ?k ?h ?es ?w0 = _ /\ _ =>
      destruct (steps k h es w0) as [w'|] eqn:E';
        [|vm_compute in E'; discriminate E']
  end.
  pose proof (transcript_is_append_only sampleKey Widget.handleSendMessage
                _ _ _ w' (or_introl eq_refl) E E') as [P _].
  exists w'. split; [reflexivity|]. split; [reflexivity|].
  split; [reflexivity|]. split; [|exact P].
  vm_compute in E'. injection E' as E'. rewrite <- E'. reflexivity.
Defined.

(** The send writes the transcript of its closure followed by the user
    record, whatever the transcript of the running widget is: the array
    form of [setMessages] extends the transcript because the closure is
    the current render, which is what [step] gives the handler. *)
Remark send_writes_closure_transcript
    (apiKey : option jsstring) (now : Date) (closure : state) (w : world) :
  is_empty_string (trim (inputText closure)) = false ->
  messages (ui (run apiKey now (Widget.handleSendMessage closure) w)) =
    messages closure ++
      [ {| text := inputText closure; sender := user;
           timestamp := toLocaleTimeString now Widget.timeOptions |} ].
Proof.
  intros Hn. unfold Widget.handleSendMessage. cbv zeta. rewrite Hn.
  simpl run. destruct (Widget.present apiKey); reflexivity.
Qed.

(** An instance of C7: close, open, close again with a message typed. *)
Lemma toggling_thrice :
  exists w',
    steps sampleKey Widget.handleSendMessage
      [ (1, CloseClicked); (2, OpenClicked); (3, CloseClicked) ]
      (typed (lit "hello")) = Some w'
    /\ isExpanded (ui w') = false
    /\ inputText (ui w') = lit "hello"
    /\ messages (ui w') = []
    /\ fileContent (ui w') = [].
Proof.
  destruct (steps sampleKey Widget.handleSendMessage _ (typed (lit "hello")))
    as [w'|] eqn:E; [|vm_compute in E; discriminate E].
  pose proof (toggling_keeps_the_rest sampleKey Widget.handleSendMessage
              [ (1, CloseClicked); (2, OpenClicked); (3, CloseClicked) ]
              (typed (lit "hello")) w' eq_refl E)
    as (M & I & F & _).
  exists w'. split; [reflexivity|]. rewrite M, I, F.
  vm_compute in E. inversion E; subst. repeat split; reflexivity.
Defined.

(** * Further properties *)

Import FileEffect View Session.

(** ** The guard of the send handlers *)

Lemma trimStart_nil_inv (s : jsstring) :
  trimStart s = [] -> forallb is_white_space s = true.
Proof.
  induction s as [|c s IH]; simpl; [reflexivity|].
  destruct (is_white_space c); [exact IH | discriminate].
Qed.

Lemma trimStart_head (s : jsstring) (c : N) (rest : jsstring) :
  trimStart s = c :: rest -> is_white_space c = false.
Proof.
  induction s as [|a s IH]; simpl; [discriminate|].
  destruct (is_white_space a) eqn:Ha; [exact IH|].
  intros H. inversion H; subst. exact Ha.
Qed.

Lemma trim_nil_inv (s : jsstring) :
  trim s = [] -> forallb is_white_space s = true.
Proof.
  unfold trim, trimEnd. intros H.
  assert (H1 : trimStart (rev (trimStart s)) = []).
  { destruct (trimStart (rev (trimStart s))) as [|a l]; [reflexivity|].
    simpl in H. destruct (rev l); discriminate H. }
  apply trimStart_nil_inv in H1.
  destruct (trimStart s) as [|c rest] eqn:E.
  - apply trimStart_nil_inv, E.
  - apply trimStart_head in E.
    rewrite forallb_forall in H1.
    rewrite (H1 c) in E; [discriminate|].
    apply in_rev. rewrite rev_involutive. left. reflexivity.
Qed.

Lemma blank_iff (s : jsstring) :
  is_empty_string (trim s) = forallb is_white_space s.
Proof.
  destruct (forallb is_white_space s) eqn:E.
  - rewrite (trim_blank s E). reflexivity.
  - destruct (trim s) as [|c l] eqn:T; [|reflexivity].
    rewrite (trim_nil_inv s T) in E. discriminate.
Qed.

(** ** What a send does, for a handler of the common shape *)

Section Send.

Variable apiKey : option jsstring.
Variable opts : time_options.
Variable handler : state -> prog.
Hypothesis handler_submits : submits opts handler.

Lemma send_outcome (now : Date) (w : world) :
  isExpanded (ui w) = true ->
  exists w',
    step apiKey handler now SendRequested w = Some w'
    /\ if is_empty_string (trim (inputText (ui w))) then w' = w
       else isExpanded (ui w') = true
            /\ inputText (ui w') = []
            /\ fileContent (ui w') = fileContent (ui w)
            /\ exists bots,
                messages (ui w') =
                  messages (ui w) ++
                    {| text := inputText (ui w); sender := user;
                       timestamp := toLocaleTimeString now opts |} :: bots
                /\ Forall (fun m => sender m = bot) bots.
Proof.
  intros Hx. unfold step. rewrite Hx. eexists. split; [reflexivity|].
  pose proof (handler_submits (ui w)) as Hh.
  destruct (is_empty_string (trim (inputText (ui w)))).
  - rewrite Hh. reflexivity.
  - destruct Hh as (rest & Hrest & ->). simpl.
    match goal with
    | |- context [ run apiKey now rest ?w1 ] =>
        destruct (run_replies apiKey rest Hrest now w1)
          as (bots & spawned & E1 & B & E2 & T & E3 & E4 & E5)
    end.
    rewrite E3, E4, E5. simpl. repeat split; auto.
    exists bots. split; [|exact B].
    rewrite E1. simpl. rewrite <- app_assoc. reflexivity.
Qed.

End Send.

(** X1. In both components a send is ignored exactly when the input is
    blank: the transcript stays as it was if and only if every code unit
    of the input is white space (the empty input included). *)
Theorem send_ignored_iff_blank
    (apiKey : option jsstring) (handler : state -> prog)
    (now : Date) (w : world) :
  handler = Widget.handleSendMessage \/ handler = Echo.handleSendMessage ->
  isExpanded (ui w) = true ->
  exists w',
    step apiKey handler now SendRequested w = Some w'
    /\ (messages (ui w') = messages (ui w)
        <-> forallb is_white_space (inputText (ui w)) = true).
Proof.
  intros Hh Hx. apply either_submits in Hh.
  destruct (send_outcome apiKey _ handler Hh now w Hx) as (w' & E & H).
  exists w'. split; [exact E|].
  rewrite <- blank_iff.
  destruct (is_empty_string (trim (inputText (ui w)))).
  - subst. split; reflexivity.
  - destruct H as (_ & _ & _ & bots & M & _). split; [|discriminate].
    rewrite M. intros H.
    rewrite <- (app_nil_r (messages (ui w))) in H at 2.
    apply app_inv_head in H. discriminate H.
Qed.

(** An instance of X1: one letter between blanks is sent, in both
    components. *)
Lemma padded_letter_is_sent :
  (exists w',
      step sampleKey Widget.handleSendMessage 0 SendRequested
        (typed (lit " a ")) = Some w'
      /\ messages (ui w') <> [])
  /\ (exists w',
        step sampleKey Echo.handleSendMessage 0 SendRequested
          (typed (lit " a ")) = Some w'
        /\ messages (ui w') <> []).
Proof.
  split.
  - destruct (send_ignored_iff_blank sampleKey Widget.handleSendMessage 0
                (typed (lit " a ")) (or_introl eq_refl) eq_refl)
      as (w' & E & H).
    exists w'. split; [exact E|]. intros M.
    assert (forallb is_white_space (lit " a ") = true) as F
      by (apply H; rewrite M; reflexivity).
    discriminate F.
  - destruct (send_ignored_iff_blank sampleKey Echo.handleSendMessage 0
                (typed (lit " a ")) (or_intror eq_refl) eq_refl)
      as (w' & E & H).
    exists w'. split; [exact E|]. intros M.
    assert (forallb is_white_space (lit " a ") = true) as F
      by (apply H; rewrite M; reflexivity).
    discriminate F.
Defined.

(** X2. In both components a send of input that is not blank empties the
    input, so a second send right after it does nothing: no record, no
    request, no report. *)
Theorem resend_does_nothing
    (apiKey : option jsstring) (handler : state -> prog)
    (t1 t2 : Date) (w w1 : world) :
  handler = Widget.handleSendMessage \/ handler = Echo.handleSendMessage ->
  is_empty_string (trim (inputText (ui w))) = false ->
  step apiKey handler t1 SendRequested w = Some w1 ->
  inputText (ui w1) = []
  /\ step apiKey handler t2 SendRequested w1 = Some w1.
Proof.
  intros Hh Hn H1. apply either_submits in Hh.
  assert (Hx : isExpanded (ui w) = true).
  { unfold step in H1. destruct (isExpanded (ui w)); [reflexivity|discriminate]. }
  destruct (send_outcome apiKey _ handler Hh t1 w Hx) as (w' & E & H).
  rewrite E in H1. inversion H1; subst w'. rewrite Hn in H.
  destruct H as (Hx1 & Hi & _).
  split; [exact Hi|].
  destruct (send_outcome apiKey _ handler Hh t2 w1 Hx1) as (w2 & E2 & H2).
  rewrite Hi in H2. simpl in H2. subst w2. exact E2.
Qed.

(** An instance of X2: ["hello"] sent twice in a row. *)
Lemma hello_twice :
  exists w1,
    steps sampleKey Widget.handleSendMessage
      [ (1, SendRequested); (2, SendRequested) ] (typed (lit "hello"))
      = Some w1
    /\ inputText (ui w1) = []
    /\ map shown (messages (ui w1)) = [ (lit "hello", user) ].
Proof.
  destruct (send_outcome sampleKey _ Widget.handleSendMessage widget_submits
              1 (typed (lit "hello")) eq_refl) as (w1 & E & _).
  pose proof (resend_does_nothing sampleKey Widget.handleSendMessage 1 2
                (typed (lit "hello")) w1 (or_introl eq_refl) eq_refl E)
    as [Hi H2].
  exists w1. split; [|split; [exact Hi|]].
  - cbn [steps]. rewrite E, H2. reflexivity.
  - lazy beta iota delta [step typed ui isExpanded] in E.
    injection E as E. rewrite <- E. reflexivity.
Defined.

(** ** What an exchange reports *)

(** X3. With the credential missing, a send of input that is not blank
    reports that the API key is missing, issues no request, leaves nothing
    pending, and still records the user message and empties the input. *)
Theorem missing_key_is_reported
    (apiKey : option jsstring) (t1 t2 t3 : Date)
    (outcome : settled response) (w : world) :
  isExpanded (ui w) = true ->
  is_empty_string (trim (inputText (ui w))) = false ->
  Widget.present apiKey = None ->
  exists w',
    exchange apiKey t1 t2 t3 outcome w = Some w'
    /\ console w' =
         console w ++
           [ (lit "Error fetching bot response:",
              Error (lit "API key is missing. Make sure it's set in your .env file.")) ]
    /\ network w' = network w
    /\ tasks w' = tasks w
    /\ inputText (ui w') = []
    /\ messages (ui w') =
         messages (ui w) ++
           [ {| text := inputText (ui w); sender := user;
                timestamp := toLocaleTimeString t1 Widget.timeOptions |} ].
Proof.
  intros Hx Hn Hk. open_exchange Hx Hn. rewrite Hk. follow.
  eexists. split; [reflexivity|]. repeat split.
Qed.

(** An instance of X3: the variable set to the empty string. *)
Lemma empty_key_is_missing :
  exists w',
    exchange (Some []) 0 1 2 (Rejected NetworkError) (typed (lit "hello"))
      = Some w'
    /\ network w' = []
    /\ length (console w') = 1%nat.
Proof.
  destruct (missing_key_is_reported (Some []) 0 1 2 (Rejected NetworkError)
              (typed (lit "hello")))
    as (w' & E & C & N & _); try reflexivity.
  exists w'. split; [exact E|]. rewrite C, N. split; reflexivity.
Defined.

(** X4. A response whose status is not a success is reported by what the
    reading of its body comes to: the rejection of the read when the body
    is not JSON; a type error when the body is null or has no [error]
    object to read [message] from, or when [error.message] cannot be
    converted to a string for the report; and otherwise an API error
    carrying the status and [error.message]. No bot record is appended. *)
Theorem http_error_is_reported
    (apiKey : option jsstring) (key : jsstring) (t1 t2 t3 : Date)
    (r : response) (w : world) :
  isExpanded (ui w) = true ->
  is_empty_string (trim (inputText (ui w))) = false ->
  Widget.present apiKey = Some key ->
  ok r = false ->
  exists w',
    exchange apiKey t1 t2 t3 (Fulfilled r) w = Some w'
    /\ console w' =
         console w ++
           [ (lit "Error fetching bot response:",
              match json r with
              | Rejected e => e
              | Fulfilled errorData =>
                  match get errorData (lit "error") with
                  | Rejected e => e
                  | Fulfilled error =>
                      match get error (lit "message") with
                      | Rejected e => e
                      | Fulfilled message =>
                          if converts message
                          then ApiError (status r) message
                          else TypeError
                      end
                  end
              end) ]
    /\ messages (ui w') =
         messages (ui w) ++
           [ {| text := inputText (ui w); sender := user;
                timestamp := toLocaleTimeString t1 Widget.timeOptions |} ]
    /\ tasks w' = tasks w.
Proof.
  intros Hx Hn Hk Hok. open_exchange Hx Hn. rewrite Hk. follow.
  rewrite Hok. follow.
  destruct (json r) as [errorData | e]; follow;
    [|eexists; split; [reflexivity|]; repeat split].
  destruct (get errorData (lit "error")) as [error | e]; follow;
    [|eexists; split; [reflexivity|]; repeat split].
  destruct (get error (lit "message")) as [message | e]; follow;
    [|eexists; split; [reflexivity|]; repeat split].
  unfold interpolate. destruct (converts message); follow;
    eexists; (split; [reflexivity|]); repeat split.
Qed.

(** An instance of X4: a 500 whose [error.message] is an object with an
    own [toString]; building the report throws, and the type error is
    what is logged. *)
Lemma unprintable_message_is_a_type_error :
  exists w',
    exchange sampleKey 0 1 2
      (Fulfilled
         (responded 500
            (VObj [ (lit "error",
                     VObj [ (lit "message",
                             VObj [ (lit "toString",
                                     VNum (number_of_nat 1)) ]) ]) ])))
      (typed (lit "hello")) = Some w'
    /\ console w' = [ (lit "Error fetching bot response:", TypeError) ].
Proof.
  destruct (http_error_is_reported sampleKey (lit "sk-test") 0 1 2
              (responded 500
                 (VObj [ (lit "error",
                          VObj [ (lit "message",
                                  VObj [ (lit "toString",
                                          VNum (number_of_nat 1)) ]) ]) ]))
              (typed (lit "hello")))
    as (w' & E & C & _); try reflexivity.
  exists w'. split; [exact E|]. rewrite C. reflexivity.
Defined.

(** X5. An ok response whose payload has no usable [choices] (the field
    is absent, null, false, zero or the empty string, or its [length] is
    zero) is reported as an invalid response, and no bot record is
    appended. *)
Theorem empty_choices_are_reported
    (apiKey : option jsstring) (key : jsstring) (t1 t2 t3 : Date)
    (r : response) (data choices : value) (w : world) :
  isExpanded (ui w) = true ->
  is_empty_string (trim (inputText (ui w))) = false ->
  Widget.present apiKey = Some key ->
  ok r = true ->
  json r = Fulfilled data ->
  get data (lit "choices") = Fulfilled choices ->
  truthy choices = false
  \/ (exists len, get choices (lit "length") = Fulfilled len
                  /\ strict_equals_zero len = true) ->
  exists w',
    exchange apiKey t1 t2 t3 (Fulfilled r) w = Some w'
    /\ console w' =
         console w ++
           [ (lit "Error fetching bot response:",
              Error (lit "Invalid response from OpenAI API.")) ]
    /\ messages (ui w') =
         messages (ui w) ++
           [ {| text := inputText (ui w); sender := user;
                timestamp := toLocaleTimeString t1 Widget.timeOptions |} ]
    /\ tasks w' = tasks w.
Proof.
  intros Hx Hn Hk Hok Hj Hc Hbad. open_exchange Hx Hn. rewrite Hk. follow.
  rewrite Hok. follow. rewrite Hj. follow. rewrite Hc. follow.
  destruct (truthy choices) eqn:Ht; follow.
  - destruct Hbad as [Hf | (len & Hl & Hz)]; [discriminate Hf|].
    rewrite Hl. follow. rewrite Hz. follow.
    eexists. split; [reflexivity|]. repeat split.
  - eexists. split; [reflexivity|]. repeat split.
Qed.

(** An instance of X5: [{ "choices": [] }]. *)
Lemma no_choices_is_invalid :
  exists w',
    exchange sampleKey 0 1 2
      (Fulfilled (responded 200 (VObj [ (lit "choices", VArr []) ])))
      (typed (lit "hello")) = Some w'
    /\ map shown (messages (ui w')) = [ (lit "hello", user) ]
    /\ length (console w') = 1%nat.
Proof.
  destruct (empty_choices_are_reported sampleKey (lit "sk-test") 0 1 2
              (responded 200 (VObj [ (lit "choices", VArr []) ]))
              (VObj [ (lit "choices", VArr []) ]) (VArr [])
              (typed (lit "hello")))
    as (w' & E & C & M & _); try reflexivity.
  - right. eexists. split; reflexivity.
  - exists w'. split; [exact E|]. rewrite C, M. split; reflexivity.
Defined.

(** X6. When the request itself is rejected, the rejection is what is
    reported; the one request stays the only one and nothing is left
    pending. *)
Theorem rejected_fetch_is_reported
    (apiKey : option jsstring) (key : jsstring) (t1 t2 t3 : Date)
    (e : js_error) (w : world) :
  isExpanded (ui w) = true ->
  is_empty_string (trim (inputText (ui w))) = false ->
  Widget.present apiKey = Some key ->
  exists w',
    exchange apiKey t1 t2 t3 (Rejected e) w = Some w'
    /\ console w' = console w ++ [ (lit "Error fetching bot response:", e) ]
    /\ network w' =
         network w ++
           [ Widget.completionRequest key (fileContent (ui w))
               (inputText (ui w)) ]
    /\ tasks w' = tasks w
    /\ messages (ui w') =
         messages (ui w) ++
           [ {| text := inputText (ui w); sender := user;
                timestamp := toLocaleTimeString t1 Widget.timeOptions |} ].
Proof.
  intros Hx Hn Hk. open_exchange Hx Hn. rewrite Hk. follow.
  eexists. split; [reflexivity|]. repeat split.
Qed.

(** An instance of X6: the network is down. *)
Lemma offline_is_reported :
  exists w',
    exchange sampleKey 0 1 2 (Rejected NetworkError) (typed (lit "hello"))
      = Some w'
    /\ console w' = [ (lit "Error fetching bot response:", NetworkError) ]
    /\ length (network w') = 1%nat.
Proof.
  destruct (rejected_fetch_is_reported sampleKey (lit "sk-test") 0 1 2
              NetworkError (typed (lit "hello")))
    as (w' & E & C & N & _); try reflexivity.
  exists w'. split; [exact E|]. rewrite C, N. split; reflexivity.
Defined.

(** Puts the boolean facts of the context in a form [congruence] uses. *)
Ltac plain_bools :=
  repeat match goal with
    | H : negb _ = true |- _ => apply negb_true_iff in H
    | H : negb _ = false |- _ => apply negb_false_iff in H
    end.

(** Closes the case of an exchange that ended without a reply. *)
Ltac no_reply Hfail :=
  split;
  [ let H := fresh in
    intros H; exfalso; (eapply Hfail; [|exact H]); reflexivity
  | let H := fresh in
    intros H;
    repeat match goal with
      | H' : ex _ |- _ => destruct H'
      | H' : _ /\ _ |- _ => destruct H'
      end;
    congruence ].

(** X7. The exact condition for a reply. An exchange appends a bot record
    if and only if the credential is present, the request is fulfilled
    with an ok status, the body parses, [data.choices] is truthy, its
    [length] is not zero, and [data.choices[0].text] is a string; [choices]
    need not be an array. *)
Theorem reply_iff
    (apiKey : option jsstring) (t1 t2 t3 : Date)
    (outcome : settled response) (w : world) :
  isExpanded (ui w) = true ->
  is_empty_string (trim (inputText (ui w))) = false ->
  exists w',
    exchange apiKey t1 t2 t3 outcome w = Some w'
    /\ ((exists u b,
            sender b = bot
            /\ messages (ui w') = messages (ui w) ++ [u; b])
        <->
        (exists key r data choices len first s,
            Widget.present apiKey = Some key
            /\ outcome = Fulfilled r
            /\ ok r = true
            /\ json r = Fulfilled data
            /\ get data (lit "choices") = Fulfilled choices
            /\ truthy choices = true
            /\ get choices (lit "length") = Fulfilled len
            /\ strict_equals_zero len = false
            /\ get_index choices 0 = Fulfilled first
            /\ get first (lit "text") = Fulfilled (VStr s))).
Proof.
  intros Hx Hn.
  assert (Hfail :
    forall w' : world,
      messages (ui w') =
        messages (ui w) ++
          [ {| text := inputText (ui w); sender := user;
               timestamp := toLocaleTimeString t1 Widget.timeOptions |} ] ->
      ~ (exists u b,
            sender b = bot
            /\ messages (ui w') = messages (ui w) ++ [u; b])).
  { intros w' M (u & b & _ & M'). rewrite M in M'.
    apply app_inv_head in M'. discriminate M'. }
  open_exchange Hx Hn.
  destruct (Widget.present apiKey) as [key|] eqn:Hk; follow;
    [|eexists; (split; [reflexivity|]); no_reply Hfail].
  destruct outcome as [r | e]; follow;
    [|eexists; (split; [reflexivity|]); no_reply Hfail].
  destruct (ok r) eqn:Hok; follow;
    (destruct (json r) as [data | e] eqn:Hj; follow;
     [|eexists; (split; [reflexivity|]); no_reply Hfail]).
  - repeat (next_read; follow);
      (eexists; split; [reflexivity|]); plain_bools;
      try (no_reply Hfail).
    split; intros _.
    + exists key, r, data, a, a0, a1, s. repeat split; assumption.
    + do 2 eexists. split; [|simpl; rewrite <- app_assoc; reflexivity].
      reflexivity.
  - repeat (next_read; follow);
      (eexists; split; [reflexivity|]); no_reply Hfail.
Qed.

(** An instance of X7: [choices] is an object with a property ["0"] and
    no [length]; the guard lets it through and the reply is appended. *)
Lemma object_choices_reply :
  exists w',
    exchange sampleKey 0 1 2
      (Fulfilled
         (responded 200
            (VObj [ (lit "choices",
                     VObj [ (lit "0",
                             VObj [ (lit "text", VStr (lit " hi ")) ]) ]) ])))
      (typed (lit "hello")) = Some w'
    /\ map shown (messages (ui w')) =
         [ (lit "hello", user); (lit "hi", bot) ].
Proof.
  destruct (reply_iff sampleKey 0 1 2
              (Fulfilled
                 (responded 200
                    (VObj [ (lit "choices",
                             VObj [ (lit "0",
                                     VObj [ (lit "text",
                                             VStr (lit " hi ")) ]) ]) ])))
              (typed (lit "hello")))
    as (w' & E & _); try reflexivity.
  exists w'. split; [exact E|].
  vm_compute in E. injection E as E. rewrite <- E. reflexivity.
Defined.

(** ** Collapsing the widget during an exchange *)

Lemma close_parked (apiKey : option jsstring) (handler : state -> prog)
    (now : Date) (t : task) (w : world) :
  isExpanded (ui w) = true ->
  advance apiKey handler now CloseClicked (park t w)
  = park t (with_ui (set_isExpanded false) w).
Proof. intros H. unfold advance, step. simpl. rewrite H. reflexivity. Qed.

Lemma close_plain (apiKey : option jsstring) (handler : state -> prog)
    (now : Date) (w : world) :
  isExpanded (ui w) = true ->
  advance apiKey handler now CloseClicked w
  = with_ui (set_isExpanded false) w.
Proof. intros H. unfold advance, step. rewrite H. reflexivity. Qed.

(** X8. Collapsing the widget while a request is in flight cancels
    nothing: the exchange ends as it would have, the reply or the report
    included, with the widget collapsed. *)
Theorem collapse_does_not_cancel
    (apiKey : option jsstring) (t1 tc t2 t3 : Date)
    (outcome : settled response) (w : world) :
  isExpanded (ui w) = true ->
  is_empty_string (trim (inputText (ui w))) = false ->
  exists w' w'',
    exchange apiKey t1 t2 t3 outcome w = Some w'
    /\ exchange_collapsed apiKey t1 tc t2 t3 outcome w = Some w''
    /\ isExpanded (ui w'') = false
    /\ messages (ui w'') = messages (ui w')
    /\ console w'' = console w'
    /\ network w'' = network w'
    /\ tasks w'' = tasks w'
    /\ unhandled w'' = unhandled w'.
Proof.
  intros Hx Hn. unfold exchange_collapsed.
  open_exchange Hx Hn.
  destruct (Widget.present apiKey) as [key|]; follow.
  2: { rewrite close_plain by exact Hx. follow.
       do 2 eexists. split; [reflexivity|]. split; [reflexivity|].
       repeat split. }
  rewrite close_parked by exact Hx. follow.
  destruct outcome as [r | e]; follow;
    [|do 2 eexists; (split; [reflexivity|]); (split; [reflexivity|]);
      repeat split].
  destruct (ok r); follow;
    (destruct (json r) as [data | e]; follow;
     [|do 2 eexists; (split; [reflexivity|]); (split; [reflexivity|]);
       repeat split]);
    repeat (next_read; follow);
    do 2 eexists; (split; [reflexivity|]); (split; [reflexivity|]);
    repeat split.
Qed.

(** An instance of X8: the reply to ["hello"] arrives in the collapsed
    widget. *)
Lemma reply_while_collapsed :
  exists w'',
    exchange_collapsed sampleKey 0 1 2 3
      (Fulfilled (responded 200 (completionPayload (lit "hi"))))
      (typed (lit "hello")) = Some w''
    /\ isExpanded (ui w'') = false
    /\ map shown (messages (ui w'')) =
         [ (lit "hello", user); (lit "hi", bot) ].
Proof.
  destruct (collapse_does_not_cancel sampleKey 0 1 2 3
              (Fulfilled (responded 200 (completionPayload (lit "hi"))))
              (typed (lit "hello")))
    as (w' & w'' & _ & E & X & _); try reflexivity.
  exists w''. split; [exact E|]. split; [exact X|].
  vm_compute in E. injection E as E. rewrite <- E. reflexivity.
Defined.

(** ** Whole sessions: every send is accounted for *)

Lemma count_app (who : Sender) (l l' : list message) :
  count who (l ++ l') = (count who l + count who l')%nat.
Proof. unfold count. rewrite List.filter_app, length_app. reflexivity. Qed.

Lemma count_bots (P : message -> Prop) (bots : list message) :
  Forall (fun m => sender m = bot /\ P m) bots ->
  count user bots = 0%nat /\ count bot bots = length bots.
Proof.
  unfold count, sent_by.
  induction 1 as [|m l [Hm _] _ [IH1 IH2]]; simpl; [auto|].
  rewrite Hm. simpl. split; [exact IH1 | f_equal; exact IH2].
Qed.

Lemma owes_weaken (P Q : message -> Prop) (p : prog) :
  (forall m, P m -> Q m) -> forall n, owes P n p -> owes Q n p.
Proof.
  intros HPQ.
  induction p as [ | e | k IH | k IH | b k IH | u k IH | s k IH | s k IH
                 | l e k IH | req k IH | r k IH | cb IHcb ms k IH ];
    simpl; intros n H; auto.
  - destruct H as [Hu Hk]. split; [|auto].
    destruct u as [|f]; [exact Hu|].
    destruct Hu as (m & Hm & HP & Hf). exists m. auto.
  - destruct H as [Hn Hk]. auto.
  - destruct H as [Hn Hk]. auto.
  - destruct H as [Hcb Hk]. auto.
Qed.

Section Accounts.

Variable apiKey : option jsstring.
Variable P : message -> Prop.

Lemma run_owes (p : prog) :
  forall n, owes P n p ->
  forall now w,
  exists bots spawned reports,
    messages (ui (run apiKey now p w)) = messages (ui w) ++ bots
    /\ Forall (fun m => sender m = bot /\ P m) bots
    /\ tasks (run apiKey now p w) = tasks w ++ spawned
    /\ Forall (task_owes P) spawned
    /\ console (run apiKey now p w) = console w ++ reports
    /\ (n + length bots + length spawned + length reports = 1)%nat
    /\ unhandled (run apiKey now p w) = unhandled w.
Proof.
  induction p as [ | e | k IH | k IH | b k IH | u k IH | s k IH | s k IH
                 | l e k IH | req k IH | r k IH | cb IHcb ms k IH ];
    simpl; intros n Hp now w; try contradiction.
  - exists [], [], []. rewrite !app_nil_r. simpl.
    repeat split; auto. lia.
  - apply (IH now n), Hp.
  - apply (IH apiKey n), Hp.
  - destruct Hp as [Hu Hk]. destruct u as [next | f]; [contradiction|].
    destruct Hu as (m & Hm & HP & Hf).
    destruct (IH (S n) Hk now (with_ui (set_messages (Updater f)) w))
      as (bots & spawned & reports & E1 & B & E2 & T & E3 & L & U).
    exists (m :: bots), spawned, reports. simpl in *.
    rewrite E1, Hf, <- app_assoc. repeat split; auto. lia.
  - destruct (IH (S n) Hp now (report l e w))
      as (bots & spawned & reports & E1 & B & E2 & T & E3 & L & U).
    exists bots, spawned, ((l, e) :: reports). simpl in *.
    rewrite E3, <- app_assoc. repeat split; auto. lia.
  - destruct Hp as [-> Hk].
    exists [], [PendingFetch req k], []. rewrite !app_nil_r. simpl.
    repeat split; auto.
  - destruct Hp as [-> Hk].
    exists [], [PendingJson r k], []. rewrite !app_nil_r. simpl.
    repeat split; auto.
  - destruct Hp as [Hcb Hk].
    destruct (IH (S n) Hk now (park (Timer cb ms) w))
      as (bots & spawned & reports & E1 & B & E2 & T & E3 & L & U).
    exists bots, (Timer cb ms :: spawned), reports. simpl in *.
    rewrite E2, <- app_assoc. repeat split; auto. lia.
Qed.

Variable handler : state -> prog.
Hypothesis handler_serves : serves P handler.





End Accounts.

Lemma widget_rest_owes (fileContent inputText : jsstring) :
  exists rest,
    owes stamped 0 rest /\
    forall rendered,
      Runtime.fileContent rendered = fileContent ->
      Runtime.inputText rendered = inputText ->
      is_empty_string (trim inputText) = false ->
      Widget.handleSendMessage rendered =
        NewDate (fun d =>
          SetMessages
            (Value (messages rendered ++
                      [{| text := inputText; sender := user;
                          timestamp := toLocaleTimeString d Widget.timeOptions |}]))
            (SetInputText [] rest)).
Proof.
  eexists. split.
  2: { intros rendered Hf Hi E. unfold Widget.handleSendMessage. cbv zeta.
       rewrite Hf, Hi, E. reflexivity. }
  repeat (simpl; intros; try next_case; try (split; [reflexivity|])).
  all: simpl; auto.
  split; [|reflexivity].
  eexists. split; [|split; [|intros prev; reflexivity]].
  - reflexivity.
  - apply time_is_hour_minute.
Qed.

Lemma widget_serves : serves stamped Widget.handleSendMessage.
Proof.
  intros rendered.
  destruct (is_empty_string (trim (inputText rendered))) eqn:E.
  - unfold Widget.handleSendMessage. rewrite E. reflexivity.
  - destruct (widget_rest_owes (fileContent rendered) (inputText rendered))
      as (rest & R & Hrest).
    exists rest. split; [exact R|]. apply Hrest; auto.
Qed.

Lemma echo_serves : serves echoes Echo.handleSendMessage.
Proof.
  intros rendered.
  destruct (is_empty_string (trim (inputText rendered))) eqn:E;
    unfold Echo.handleSendMessage; rewrite E; [reflexivity|].
  eexists. split; [|reflexivity].
  simpl. split; [|reflexivity]. intros d. split; [|reflexivity].
  eexists. split; [|split; [|intros prev; reflexivity]].
  - reflexivity.
  - split; [apply time_is_hour_minute|].
    eexists. split; [reflexivity | exact E].
Qed.

Lemma serves_weaken (P Q : message -> Prop) (handler : state -> prog) :
  (forall m, P m -> Q m) -> serves P handler -> serves Q handler.
Proof.
  intros HPQ H rendered. specialize (H rendered).
  destruct (is_empty_string (trim (inputText rendered))); [exact H|].
  destruct H as (rest & R & E). exists rest.
  split; [exact (owes_weaken P Q rest HPQ 0%nat R) | exact E].
Qed.





(** Names the end of a concrete session, which must exist. *)
Ltac session_end w E :=
  match goal with
  | |- exists w0, ?run = Some w0 /\ _ =>
      destruct run as [w|] eqn:E; [|vm_compute in E; discriminate E]
  end.

(** Evaluates the end of a concrete session in which nothing is pending. *)
Ltac session_value E :=
  vm_compute in E; injection E as E; rewrite <- E.




(** ** The echo widget *)

Lemma resume_timer (apiKey : option jsstring) (handler : state -> prog)
    (now : Date) (i : nat) (cb : prog) (ms : Z) (w : world) :
  i = length (tasks w) ->
  advance apiKey handler now (TimerFired i) (park (Timer cb ms) w)
  = run apiKey now cb w.
Proof.
  intros ->. destruct w as [u ts n c h]. unfold advance, step, park, unpark.
  simpl. rewrite list_lookup_middle by reflexivity.
  rewrite delete_middle, app_nil_r. reflexivity.
Qed.

(** X13. The echo widget replies, when its timer fires, with
    ["You said: "] followed by the text as it was when sent, whatever has
    been typed into the input since; what was typed stays in the input. *)
Theorem echo_quotes_what_was_sent
    (apiKey : option jsstring) (t1 t2 t3 : Date)
    (later : jsstring) (w : world) :
  isExpanded (ui w) = true ->
  is_empty_string (trim (inputText (ui w))) = false ->
  exists w',
    echo_exchange apiKey t1 t2 t3 later w = Some w'
    /\ messages (ui w') =
         messages (ui w) ++
           [ {| text := inputText (ui w); sender := user;
                timestamp := toLocaleTimeString t1 Echo.timeOptions |};
             {| text := lit "You said: " ++ inputText (ui w); sender := bot;
                timestamp := toLocaleTimeString t3 Echo.timeOptions |} ]
    /\ inputText (ui w') = later
    /\ tasks w' = tasks w
    /\ network w' = network w
    /\ console w' = console w.
Proof.
  intros Hx Hn. unfold echo_exchange, step. rewrite Hx.
  unfold Echo.handleSendMessage. cbv zeta. rewrite Hn. simpl run.
  unfold advance at 2. unfold step. simpl isExpanded. rewrite Hx.
  simpl run.
  change (with_ui (set_inputText later) (park ?t ?w0))
    with (park t (with_ui (set_inputText later) w0)).
  rewrite resume_timer by reflexivity. simpl run.
  eexists. split; [reflexivity|]. simpl. rewrite <- app_assoc.
  repeat split.
Qed.

(** An instance of X13: ["ping"] sent, ["pong"] typed before the timer. *)
Lemma ping_is_quoted :
  exists w',
    echo_exchange None 0 1 2 (lit "pong") (typed (lit "ping")) = Some w'
    /\ map shown (messages (ui w')) =
         [ (lit "ping", user); (lit "You said: ping", bot) ]
    /\ inputText (ui w') = lit "pong".
Proof.
  destruct (echo_quotes_what_was_sent None 0 1 2 (lit "pong")
              (typed (lit "ping")))
    as (w' & E & M & I & _); try reflexivity.
  exists w'. split; [exact E|]. rewrite M, I. split; reflexivity.
Defined.

(** ** Sessions that never touch the network *)

Section Quiet.

Variable apiKey : option jsstring.

Lemma run_quiet (p : prog) :
  quiet p ->
  forall now w,
    network (run apiKey now p w) = network w
    /\ console (run apiKey now p w) = console w
    /\ exists spawned,
        tasks (run apiKey now p w) = tasks w ++ spawned
        /\ Forall task_quiet spawned.
Proof.
  induction p as [ | e | k IH | k IH | b k IH | u k IH | s k IH | s k IH
                 | l e k IH | req k IH | r k IH | cb IHcb ms k IH ];
    simpl; intros Hp now w; try contradiction.
  - repeat split. exists []. rewrite app_nil_r. auto.
  - apply IH, Hp.
  - apply IH, Hp.
  - apply (IH Hp now (with_ui (set_isExpanded b) w)).
  - apply (IH Hp now (with_ui (set_messages u) w)).
  - apply (IH Hp now (with_ui (set_inputText s) w)).
  - apply (IH Hp now (with_ui (set_fileContent s) w)).
  - destruct Hp as [Hcb Hk].
    destruct (IH Hk now (park (Timer cb ms) w)) as (N & C & spawned & T & Q).
    simpl in *. repeat split; auto.
    exists (Timer cb ms :: spawned). rewrite T, <- app_assoc. auto.
Qed.

Variable handler : state -> prog.
Hypothesis handler_quiet : forall rendered, quiet (handler rendered).

Lemma run_silent (now : Date) (p : prog) (w : world) :
  quiet p -> silent w -> silent (run apiKey now p w).
Proof.
  intros Hp (T & N & C).
  destruct (run_quiet p Hp now w) as (N' & C' & spawned & T' & Q).
  repeat split; [|congruence|congruence].
  rewrite T'. apply Forall_app. split; assumption.
Qed.

Lemma step_silent (now : Date) (e : event) (w w' : world) :
  silent w -> step apiKey handler now e w = Some w' -> silent w'.
Proof.
  intros Hw Hs.
  destruct e as [ | | s | | s | i o | i | i ]; simpl in Hs.
  - destruct (isExpanded (ui w)); inversion Hs; subst. exact Hw.
  - destruct (isExpanded (ui w)); inversion Hs; subst. exact Hw.
  - destruct (isExpanded (ui w)); inversion Hs; subst. exact Hw.
  - destruct (isExpanded (ui w)); inversion Hs; subst.
    apply run_silent; [apply handler_quiet | exact Hw].
  - inversion Hs; subst. exact Hw.
  - destruct (tasks w !! i) as [[req k | r k | cb ms]|] eqn:Ht;
      inversion Hs; subst.
    destruct (proj1 (Forall_lookup _ _) (proj1 Hw) i _ Ht).
  - destruct (tasks w !! i) as [[req k | r k | cb ms]|] eqn:Ht;
      inversion Hs; subst.
    destruct (proj1 (Forall_lookup _ _) (proj1 Hw) i _ Ht).
  - destruct (tasks w !! i) as [[req k | r k | cb ms]|] eqn:Ht;
      inversion Hs; subst.
    pose proof (proj1 (Forall_lookup _ _) (proj1 Hw) i _ Ht) as Hk.
    apply run_silent; [exact Hk|].
    destruct Hw as (T & N & C). repeat split; auto.
    simpl. apply Forall_delete, T.
Qed.

Lemma steps_silent (es : list (Date * event)) (w w' : world) :
  silent w -> steps apiKey handler es w = Some w' -> silent w'.
Proof.
  revert w. induction es as [|[now e] es IH]; simpl; intros w Hw Hs.
  - inversion Hs; subst. exact Hw.
  - destruct (step apiKey handler now e w) as [w1|] eqn:H1; [|discriminate].
    exact (IH w1 (step_silent now e w w1 Hw H1) Hs).
Qed.

End Quiet.

Lemma echo_quiet (rendered : state) : quiet (Echo.handleSendMessage rendered).
Proof.
  unfold Echo.handleSendMessage.
  destruct (is_empty_string (trim (inputText rendered))); simpl; auto.
Qed.

(** ** The context document *)

(** The request of an exchange is built from the context document and
    the input of the world the send is handled in, and the exchange leaves
    the context document alone. *)
Lemma exchange_request
    (apiKey : option jsstring) (key : jsstring) (t1 t2 t3 : Date)
    (outcome : settled response) (w : world) :
  isExpanded (ui w) = true ->
  is_empty_string (trim (inputText (ui w))) = false ->
  Widget.present apiKey = Some key ->
  exists w',
    exchange apiKey t1 t2 t3 outcome w = Some w'
    /\ network w' =
         network w ++
           [ Widget.completionRequest key (fileContent (ui w))
               (inputText (ui w)) ]
    /\ fileContent (ui w') = fileContent (ui w).
Proof.
  intros Hx Hn Hk. open_exchange Hx Hn. rewrite Hk. follow.
  destruct outcome as [r | e]; follow;
    [|eexists; split; [reflexivity|]; split; reflexivity].
  destruct (ok r); follow;
    (destruct (json r) as [data | e]; follow;
     [|eexists; split; [reflexivity|]; split; reflexivity]);
    repeat (next_read; follow);
    eexists; (split; [reflexivity|]); split; reflexivity.
Qed.



(** X17. When the file request is rejected, or the reading of its body
    is, the failure is reported once to the console under its own label,
    and the context document, the transcript, the input and the state of
    the widget stay as they were; a later send uses the context as it
    was. *)
Theorem file_failure_keeps_context
    (apiKey : option jsstring) (key : jsstring) (now t1 t2 t3 : Date)
    (fetched : settled text_response) (e : js_error)
    (outcome : settled response) (w : world) :
  isExpanded (ui w) = true ->
  is_empty_string (trim (inputText (ui w))) = false ->
  Widget.present apiKey = Some key ->
  fetched = Rejected e
  \/ (exists code, fetched = Fulfilled {| fileStatus := code;
                                          bodyText := Rejected e |}) ->
  let failed := fileSettled apiKey now fetched w in
  ui failed = ui w
  /\ console failed = console w ++ [ (lit "Error fetching file content:", e) ]
  /\ network failed = network w
  /\ tasks failed = tasks w
  /\ exists w',
      exchange apiKey t1 t2 t3 outcome failed = Some w'
      /\ network w' =
           network w ++
             [ Widget.completionRequest key (fileContent (ui w))
                 (inputText (ui w)) ].
Proof.
  intros Hx Hn Hk Hf failed.
  assert (Hw : failed =
               report (lit "Error fetching file content:") e w).
  { unfold failed, fileSettled.
    destruct Hf as [-> | (code & ->)]; reflexivity. }
  rewrite Hw. repeat split.
  destruct (exchange_request apiKey key t1 t2 t3 outcome
              (report (lit "Error fetching file content:") e w) Hx Hn Hk)
    as (w' & E & N & _).
  exists w'. split; [exact E | exact N].
Qed.

(** An instance of X17: the file host is unreachable. *)
Lemma unreachable_file_is_reported :
  exists w',
    exchange sampleKey 1 2 3 (Rejected NetworkError)
      (fileSettled sampleKey 0 (Rejected NetworkError) (typed (lit "hi")))
      = Some w'
    /\ console w' =
         [ (lit "Error fetching file content:", NetworkError);
           (lit "Error fetching bot response:", NetworkError) ]
    /\ fileContent (ui w') = [].
Proof.
  destruct (file_failure_keeps_context sampleKey (lit "sk-test") 0 1 2 3
              (Rejected NetworkError) NetworkError (Rejected NetworkError)
              (typed (lit "hi")))
    as (_ & _ & _ & _ & w' & E & _); try reflexivity.
  - left. reflexivity.
  - exists w'. split; [exact E|].
    vm_compute in E. injection E as E. rewrite <- E. split; reflexivity.
Defined.



(** ** What settlements leave alone *)



(** ** The view *)

Lemma toggles_keep_state (apiKey : option jsstring) (handler : state -> prog)
    (clicks : list (Date * event)) (w w' : world) :
  forallb (fun te => is_toggle (snd te)) clicks = true ->
  steps apiKey handler clicks w = Some w' ->
  messages (ui w') = messages (ui w) /\ inputText (ui w') = inputText (ui w).
Proof.
  revert w. induction clicks as [|[now e] clicks IH]; simpl; intros w Hc Hs.
  - inversion Hs; subst. split; reflexivity.
  - apply andb_prop in Hc as [He Hc].
    destruct e; try discriminate He; simpl in Hs;
      destruct (isExpanded (ui w)); try discriminate Hs;
      destruct (IH _ Hc Hs) as (M & I); simpl in *; split; assumption.
Qed.

(** X19. After any run of expand and collapse clicks the component
    renders what it rendered before if it is back in the same state, the
    rows of the message list and the input value included; while
    collapsed it renders the chat button alone. *)
Theorem view_survives_toggling
    (apiKey : option jsstring) (handler : state -> prog)
    (title description : jsstring)
    (clicks : list (Date * event)) (w w' : world) :
  forallb (fun te => is_toggle (snd te)) clicks = true ->
  steps apiKey handler clicks w = Some w' ->
  (isExpanded (ui w') = isExpanded (ui w) ->
   render title description (ui w') = render title description (ui w))
  /\ (isExpanded (ui w') = false ->
      render title description (ui w') = ChatButton title).
Proof.
  intros Hc Hs.
  destruct (toggles_keep_state apiKey handler clicks w w' Hc Hs) as [M I].
  unfold render. split.
  - intros ->. rewrite M, I. reflexivity.
  - intros ->. reflexivity.
Qed.

(** An instance of X19: closed and opened again with ["hello"] typed. *)
Lemma reopened_view_is_the_same :
  exists w',
    steps sampleKey Widget.handleSendMessage
      [ (1, CloseClicked); (2, OpenClicked) ] (typed (lit "hello")) = Some w'
    /\ render (lit "Chat") (lit "Help") (ui w') =
         ChatWindow (lit "Help") [] (lit "hello").
Proof.
  session_end w' E.
  pose proof (view_survives_toggling sampleKey Widget.handleSendMessage
                (lit "Chat") (lit "Help")
                [ (1, CloseClicked); (2, OpenClicked) ]
                (typed (lit "hello")) w' eq_refl E) as [H _].
  exists w'. split; [reflexivity|]. rewrite H; [reflexivity|].
  session_value E. reflexivity.
Defined.

(** ** Blank completions *)

(** X21. The guard on blank text applies to the user's input only: a
    completion made of white space is appended as a bot record whose text
    is empty. *)
Theorem blank_completion_is_appended
    (apiKey : option jsstring) (key : jsstring) (t1 t2 t3 : Date)
    (r : response) (data choices first : value) (len : value)
    (s : jsstring) (w : world) :
  isExpanded (ui w) = true ->
  is_empty_string (trim (inputText (ui w))) = false ->
  Widget.present apiKey = Some key ->
  ok r = true ->
  json r = Fulfilled data ->
  get data (lit "choices") = Fulfilled choices ->
  truthy choices = true ->
  get choices (lit "length") = Fulfilled len ->
  strict_equals_zero len = false ->
  get_index choices 0 = Fulfilled first ->
  get first (lit "text") = Fulfilled (VStr s) ->
  forallb is_white_space s = true ->
  exists w',
    exchange apiKey t1 t2 t3 (Fulfilled r) w = Some w'
    /\ messages (ui w') =
         messages (ui w) ++
           [ {| text := inputText (ui w); sender := user;
                timestamp := toLocaleTimeString t1 Widget.timeOptions |};
             {| text := []; sender := bot;
                timestamp := toLocaleTimeString t3 Widget.timeOptions |} ]
    /\ console w' = console w.
Proof.
  intros Hx Hn Hk Hok Hj Hc Ht Hl Hz Hf Hs Hb.
  open_exchange Hx Hn. rewrite Hk. follow. rewrite Hok. follow.
  rewrite Hj. follow. rewrite Hc. follow. rewrite Ht. follow.
  rewrite Hl. follow. rewrite Hz. follow. rewrite Hf. follow.
  rewrite Hs. follow. rewrite (trim_blank s Hb).
  eexists. split; [reflexivity|]. simpl. rewrite <- app_assoc.
  split; reflexivity.
Qed.

(** An instance of X21: the completion is two spaces and a line feed. *)
Lemma blank_reply_is_shown :
  exists w',
    exchange sampleKey 0 1 2
      (Fulfilled (responded 200 (completionPayload [32; 32; 10]%N)))
      (typed (lit "hello")) = Some w'
    /\ map shown (messages (ui w')) = [ (lit "hello", user); ([], bot) ].
Proof.
  destruct (blank_completion_is_appended sampleKey (lit "sk-test") 0 1 2
              (responded 200 (completionPayload [32; 32; 10]%N))
              (completionPayload [32; 32; 10]%N)
              (VArr [ VObj [ (lit "text", VStr [32; 32; 10]%N) ] ])
              (VObj [ (lit "text", VStr [32; 32; 10]%N) ])
              (VNum (number_of_nat 1))
              [32; 32; 10]%N (typed (lit "hello")))
    as (w' & E & M & _); try reflexivity.
  exists w'. split; [exact E|]. rewrite M. reflexivity.
Defined.

(** * Sessions in which a render can lag behind *)

Import Concurrent.

(** ** What a tree does to the transcript, whatever the rest of the state *)

Lemma run_messages_agree (apiKey : option jsstring) (p : prog) :
  forall now w1 w2,
    messages (ui w1) = messages (ui w2) ->
    messages (ui (run apiKey now p w1)) = messages (ui (run apiKey now p w2)).
Proof.
  induction p as [ | e | k IH | k IH | b k IH | u k IH | s k IH | s k IH
                 | l e k IH | req k IH | r k IH | cb IHcb ms k IH ];
    simpl; intros now w1 w2 H; auto.
  - apply IH. simpl. destruct u as [next | f]; [reflexivity|].
    rewrite H. reflexivity.
Qed.

Lemma run_reports_as (apiKey : option jsstring) (label : jsstring) (p : prog) :
  reports_as label p ->
  forall now w,
  exists reports spawned,
    console (run apiKey now p w) = console w ++ reports
    /\ Forall (fun entry => fst entry = label) reports
    /\ tasks (run apiKey now p w) = tasks w ++ spawned
    /\ Forall (task_reports_as label) spawned.
Proof.
  induction p as [ | e | k IH | k IH | b k IH | u k IH | s k IH | s k IH
                 | l e k IH | req k IH | r k IH | cb IHcb ms k IH ];
    simpl; intros Hp now w.
  - exists [], []. rewrite !app_nil_r. auto.
  - exists [], []. rewrite !app_nil_r. auto.
  - apply IH, Hp.
  - apply IH, Hp.
  - apply (IH Hp now (with_ui (set_isExpanded b) w)).
  - apply (IH Hp now (with_ui (set_messages u) w)).
  - apply (IH Hp now (with_ui (set_inputText s) w)).
  - apply (IH Hp now (with_ui (set_fileContent s) w)).
  - destruct Hp as [-> Hk].
    destruct (IH Hk now (report label e w)) as (reports & spawned & C & L & T & S).
    exists ((label, e) :: reports), spawned. simpl in *.
    rewrite C, <- app_assoc. auto.
  - exists [], [PendingFetch req k]. rewrite app_nil_r. simpl. auto.
  - exists [], [PendingJson r k]. rewrite app_nil_r. simpl. auto.
  - destruct Hp as [Hcb Hk].
    destruct (IH Hk now (park (Timer cb ms) w)) as (reports & spawned & C & L & T & S).
    exists reports, (Timer cb ms :: spawned). simpl in *.
    rewrite T, <- app_assoc. auto.
Qed.

Lemma exchange_reports_app (c1 c2 : list (jsstring * js_error)) :
  exchange_reports (c1 ++ c2)
  = (exchange_reports c1 + exchange_reports c2)%nat.
Proof.
  unfold exchange_reports. rewrite List.filter_app, length_app. reflexivity.
Qed.

Lemma exchange_reports_all (reports : list (jsstring * js_error)) :
  Forall (fun entry => fst entry = lit "Error fetching bot response:") reports ->
  exchange_reports reports = length reports.
Proof.
  unfold exchange_reports.
  induction 1 as [|entry l H _ IH]; simpl; [reflexivity|].
  rewrite bool_decide_eq_true_2 by exact H. simpl. f_equal. exact IH.
Qed.

Lemma file_report_is_no_exchange_report (e : js_error) :
  exchange_reports [ (lit "Error fetching file content:", e) ] = 0%nat.
Proof. vm_compute. reflexivity. Qed.

Lemma widget_reports (rendered : state) :
  reports_as (lit "Error fetching bot response:")
    (Widget.handleSendMessage rendered).
Proof.
  unfold Widget.handleSendMessage.
  destruct (is_empty_string (trim (inputText rendered))); [exact I|].
  repeat (simpl; intros; try next_case); simpl; auto.
Qed.

Lemma echo_reports (rendered : state) :
  reports_as (lit "Error fetching bot response:")
    (Echo.handleSendMessage rendered).
Proof.
  unfold Echo.handleSendMessage.
  destruct (is_empty_string (trim (inputText rendered))); simpl; auto.
Qed.

(** ** Accounting, when no send races a reply *)

Section Balance.

Variable apiKey : option jsstring.
Variable c : component.
Hypothesis handler_serves : serves stamped (onSend c).
Hypothesis handler_reports :
  forall rendered,
    reports_as (lit "Error fetching bot response:") (onSend c rendered).

Lemma run_balanced (p : prog) (n : nat) (now : Date) (w : world) :
  owes stamped n p ->
  reports_as (lit "Error fetching bot response:") p ->
  exists bots spawned reports,
    messages (ui (run apiKey now p w)) = messages (ui w) ++ bots
    /\ Forall (fun m => sender m = bot /\ stamped m) bots
    /\ tasks (run apiKey now p w) = tasks w ++ spawned
    /\ Forall (fun t =>
                 task_owes stamped t
                 /\ task_reports_as (lit "Error fetching bot response:") t)
         spawned
    /\ console (run apiKey now p w) = console w ++ reports
    /\ exchange_reports reports = length reports
    /\ (n + length bots + length spawned + length reports = 1)%nat.
Proof.
  intros Ho Hr.
  destruct (run_owes apiKey stamped p n Ho now w)
    as (bots & spawned & reports & E1 & B & E2 & T & E3 & L & _).
  destruct (run_reports_as apiKey _ p Hr now w)
    as (reports' & spawned' & E3' & R & E2' & T').
  rewrite E2 in E2'. apply app_inv_head in E2'. subst spawned'.
  rewrite E3 in E3'. apply app_inv_head in E3'. subst reports'.
  exists bots, spawned, reports. repeat split; auto.
  - apply Forall_and. split; assumption.
  - apply exchange_reports_all, R.
Qed.

Lemma resume_balanced (now : Date) (i : nat) (t : task) (p : prog)
    (w : world) :
  balanced stamped w -> tasks w !! i = Some t ->
  owes stamped 0 p ->
  reports_as (lit "Error fetching bot response:") p ->
  balanced stamped (run apiKey now p (unpark i w)).
Proof.
  intros (T & C) Hi Ho Hr.
  destruct (run_balanced p 0 now (unpark i w) Ho Hr)
    as (bots & spawned & reports & E1 & B & E2 & T' & E3 & R & L).
  destruct (count_bots stamped bots B) as [Cu Cb].
  pose proof (lookup_lt_Some _ _ _ Hi) as Hlt.
  pose proof (length_delete (tasks w) i (ex_intro _ t Hi)) as Hd.
  simpl in *. split.
  - rewrite E2. apply Forall_app. split; [apply Forall_delete, T | exact T'].
  - rewrite E1, E2, E3, !count_app, !length_app, exchange_reports_app,
      Cu, Cb, R. lia.
Qed.

Lemma step_settled (now : Date) (t : turn) (unrendered : bool) (p p' : page) :
  settled_page unrendered p ->
  sends_are_current unrendered [(now, t)] = true ->
  Concurrent.step apiKey c now t p = Some p' ->
  settled_page (carried unrendered t) p'.
Proof.
  intros [Hb Hc] Hs H.
  destruct t as [e | fileUrl | fetched | ]; simpl in H; simpl carried.
  - destruct (is_settlement e) eqn:He.
    + (* a continuation is resumed *)
      destruct (Runtime.step apiKey (onSend c) now e (live p)) as [w'|] eqn:H1;
        [|discriminate].
      inversion H; subst p'; clear H. rewrite orb_true_r.
      split; [|discriminate]. simpl.
      destruct e as [ | | s | | s | i o | i | i ]; try discriminate He;
        simpl in H1;
        destruct (tasks (live p) !! i) as [[req k | r k | cb ms]|] eqn:Ht;
        inversion H1; subst;
        destruct (proj1 (Forall_lookup _ _) (proj1 Hb) i _ Ht) as [Ho Hr];
        simpl in Ho, Hr.
      * exact (resume_balanced now i _ _ _ Hb Ht (Ho o) (Hr o)).
      * exact (resume_balanced now i _ _ _ Hb Ht (Ho (json r)) (Hr (json r))).
      * exact (resume_balanced now i _ _ _ Hb Ht Ho Hr).
    + (* a user event *)
      rewrite orb_false_r.
      destruct (handled c e (closure p)) as [prog|] eqn:Hh; [|discriminate].
      inversion H; subst p'; clear H. unfold settled_page. simpl.
      destruct e as [ | | s | | s | i o | i | i ]; try discriminate He;
        simpl in Hh; try discriminate Hh;
        destruct (isExpanded (closure p)); try discriminate Hh;
        inversion Hh; subst prog; clear Hh;
        try (split; [exact Hb | exact Hc]).
      (* the send *)
      simpl in Hs. rewrite andb_true_r in Hs. apply negb_true_iff in Hs.
      specialize (Hc Hs).
      pose proof (handler_serves (closure p)) as Hsend.
      pose proof (handler_reports (closure p)) as Hrep.
      destruct (is_empty_string (trim (inputText (closure p)))) eqn:Hn.
      * rewrite Hsend. unfold rerendered. simpl.
        split; [exact Hb | intros _; exact Hc].
      * destruct Hsend as (rest & Hrest & Heq). rewrite Heq in *.
        simpl in Hrep. specialize (Hrep now). unfold rerendered. simpl.
        split.
        -- destruct Hb as (T & C).
           match goal with
           | |- balanced _ (run apiKey now rest ?w1) =>
               destruct (run_balanced rest 0 now w1 Hrest Hrep)
                 as (bots & spawned & reports & E1 & B & E2 & T' & E3 & R & L)
           end.
           destruct (count_bots stamped bots B) as [Cu Cb].
           simpl in *. split.
           ++ rewrite E2. apply Forall_app. split; assumption.
           ++ rewrite E1, E2, E3, Hc, !count_app, !length_app,
                exchange_reports_app, Cu, Cb, R.
              unfold count at 2 4. simpl. lia.
        -- intros _. apply run_messages_agree. reflexivity.
  - destruct (hasFileEffect c); [|discriminate].
    inversion H; subst p'; clear H.
    destruct fileUrl as [[|a url]|]; (split; [exact Hb | exact Hc]).
  - destruct (hasFileEffect c); [|discriminate].
    destruct (inFlight p); [discriminate|].
    inversion H; subst p'; clear H. split; [|].
    + simpl. unfold fileSettled.
      destruct Hb as (T & C).
      destruct fetched as [[code [content | e]] | e]; simpl;
        (split; [exact T|]); simpl;
        rewrite ?exchange_reports_app, ?file_report_is_no_exchange_report;
        rewrite ?Nat.add_0_r; exact C.
    + simpl. unfold fileSettled.
      destruct fetched as [[code [content | e]] | e]; simpl; exact Hc.
  - inversion H; subst p'; clear H. split; [exact Hb | reflexivity].
Qed.

Lemma sends_are_current_cons (unrendered : bool) (now : Date) (t : turn)
    (ts : list (Date * turn)) :
  sends_are_current unrendered ((now, t) :: ts)
  = sends_are_current unrendered [(now, t)]
    && sends_are_current (carried unrendered t) ts.
Proof.
  destruct t as [e | fileUrl | fetched | ]; simpl; try reflexivity.
  destruct e; simpl; rewrite ?orb_false_r, ?andb_true_r; reflexivity.
Qed.

Lemma steps_settled (ts : list (Date * turn)) :
  forall unrendered p p',
    settled_page unrendered p ->
    sends_are_current unrendered ts = true ->
    Concurrent.steps apiKey c ts p = Some p' ->
    balanced stamped (live p').
Proof.
  induction ts as [|[now t] ts IH]; intros unrendered p p' Hp Hs H.
  - simpl in H. inversion H; subst. exact (proj1 Hp).
  - rewrite sends_are_current_cons in Hs. apply andb_prop in Hs as [H1 H2].
    cbn [Concurrent.steps] in H.
    destruct (Concurrent.step apiKey c now t p) as [p1|] eqn:E; [|discriminate].
    exact (IH _ p1 p' (step_settled now t unrendered p p1 Hp H1 E) H2 H).
Qed.

End Balance.

Lemma mounted_settled : settled_page false mountedPage.
Proof. split; [split; constructor | reflexivity]. Qed.

Lemma either_component (c : component) :
  c = completionWidget \/ c = echoWidget ->
  serves stamped (onSend c)
  /\ forall rendered,
      reports_as (lit "Error fetching bot response:") (onSend c rendered).
Proof.
  intros [-> | ->]; simpl.
  - split; [apply widget_serves | apply widget_reports].
  - split; [|apply echo_reports].
    apply (serves_weaken echoes); [|apply echo_serves].
    intros m [H _]. exact H.
Qed.

(** X9. In both components, in every session in which no send is
    dispatched while a reply waits to be rendered, each user record is
    accounted for exactly once: the number of user records is the number
    of bot records, plus the continuations of exchanges still pending,
    plus the console reports of failed exchanges. The request for the
    context document and the report of its failure are part of the
    sessions and count for nothing here. *)
Theorem current_sends_are_accounted_for
    (apiKey : option jsstring) (c : component)
    (ts : list (Date * turn)) (p : page) :
  c = completionWidget \/ c = echoWidget ->
  sends_are_current false ts = true ->
  Concurrent.steps apiKey c ts mountedPage = Some p ->
  count user (messages (ui (live p))) =
    (count bot (messages (ui (live p))) + length (tasks (live p))
     + exchange_reports (console (live p)))%nat.
Proof.
  intros Hc Hs H. destruct (either_component c Hc) as [Hserves Hreports].
  exact (proj2 (steps_settled apiKey c Hserves Hreports ts false mountedPage p
                  mounted_settled Hs H)).
Qed.

(** An instance of X9: the file request fails, a first exchange fails, a
    second one is answered after React has rendered. *)
Lemma one_failure_one_reply :
  exists p,
    Concurrent.steps sampleKey completionWidget
      [ (0, EffectRuns (Some (lit "/faq.txt")));
        (1, Dispatch OpenClicked);
        (2, FileSettles (Rejected NetworkError));
        (3, Dispatch (InputChanged (lit "a")));
        (4, Dispatch SendRequested);
        (5, Dispatch (FetchSettled 0 (Rejected NetworkError)));
        (6, Commit);
        (7, Dispatch (InputChanged (lit "b")));
        (8, Dispatch SendRequested);
        (9, Dispatch
              (FetchSettled 0
                 (Fulfilled (responded 200 (completionPayload (lit "B"))))));
        (10, Dispatch (JsonSettled 0)) ]
      mountedPage = Some p
    /\ count user (messages (ui (live p))) =
         (count bot (messages (ui (live p))) + length (tasks (live p))
          + exchange_reports (console (live p)))%nat
    /\ count user (messages (ui (live p))) = 2%nat
    /\ count bot (messages (ui (live p))) = 1%nat
    /\ length (console (live p)) = 2%nat
    /\ length (network (live p)) = 3%nat.
Proof.
  session_end p E.
  match type of E with
  | Concurrent.steps _ _ ?ts _ = _ =>
      pose proof (current_sends_are_accounted_for sampleKey completionWidget
                    ts p (or_introl eq_refl) eq_refl E) as H
  end.
  exists p. split; [reflexivity|]. split; [exact H|].
  session_value E. repeat split; reflexivity.
Defined.

(** ** The echo widget, with lagging renders *)

Section EchoPage.

Variable apiKey : option jsstring.

Lemma step_echo_silent (now : Date) (t : turn) (p p' : page) :
  silent (live p) ->
  Concurrent.step apiKey echoWidget now t p = Some p' ->
  silent (live p').
Proof.
  intros Hw H. destruct t as [e | fileUrl | fetched | ]; simpl in H;
    try discriminate H.
  - destruct (is_settlement e) eqn:He.
    + destruct (Runtime.step apiKey Echo.handleSendMessage now e (live p))
        as [w'|] eqn:H1; [|discriminate].
      inversion H; subst p'; simpl.
      exact (step_silent apiKey Echo.handleSendMessage echo_quiet now e
               (live p) w' Hw H1).
    + destruct (handled echoWidget e (closure p)) as [prog|] eqn:Hh;
        [|discriminate].
      inversion H; subst p'; simpl.
      apply run_silent; [|exact Hw].
      destruct e; simpl in Hh; try discriminate Hh;
        destruct (isExpanded (closure p)); inversion Hh; subst;
        try exact I.
      apply echo_quiet.
  - inversion H; subst p'. exact Hw.
Qed.

Lemma steps_echo_silent (ts : list (Date * turn)) :
  forall p p',
    silent (live p) ->
    Concurrent.steps apiKey echoWidget ts p = Some p' ->
    silent (live p').
Proof.
  induction ts as [|[now t] ts IH]; simpl; intros p p' Hp H.
  - inversion H; subst. exact Hp.
  - destruct (Concurrent.step apiKey echoWidget now t p) as [p1|] eqn:E;
      [|discriminate].
    exact (IH p1 p' (step_echo_silent now t p p1 Hp E) H).
Qed.

End EchoPage.

(** X14. The echo widget never issues a request and never writes to the
    console, in any session, a send that races a reply included; and in
    the sessions in which no send is dispatched while a reply waits to be
    rendered, its user records are its bot records plus the timers still
    pending. *)
Theorem echo_requests_and_reports_nothing
    (apiKey : option jsstring) (ts : list (Date * turn)) (p : page) :
  Concurrent.steps apiKey echoWidget ts mountedPage = Some p ->
  network (live p) = []
  /\ console (live p) = []
  /\ (sends_are_current false ts = true ->
      count user (messages (ui (live p))) =
        (count bot (messages (ui (live p))) + length (tasks (live p)))%nat).
Proof.
  intros H.
  destruct (steps_echo_silent apiKey ts mountedPage p) as (_ & N & C);
    [repeat split; constructor | exact H |].
  split; [exact N|]. split; [exact C|]. intros Hs.
  destruct (either_component echoWidget (or_intror eq_refl))
    as [Hserves Hreports].
  pose proof (proj2 (steps_settled apiKey echoWidget Hserves Hreports ts
                       false mountedPage p mounted_settled Hs H)) as A.
  rewrite C in A. simpl in A. unfold exchange_reports in A. simpl in A. lia.
Qed.

(** An instance of X14: two echoes, each rendered before the next send. *)
Lemma two_echoes_in_turn :
  exists p,
    Concurrent.steps None echoWidget
      [ (0, Dispatch OpenClicked);
        (1, Dispatch (InputChanged (lit "a"))); (2, Dispatch SendRequested);
        (3, Dispatch (TimerFired 0)); (4, Commit);
        (5, Dispatch (InputChanged (lit "b"))); (6, Dispatch SendRequested);
        (7, Dispatch (TimerFired 0)) ]
      mountedPage = Some p
    /\ network (live p) = []
    /\ console (live p) = []
    /\ count user (messages (ui (live p))) =
         (count bot (messages (ui (live p))) + length (tasks (live p)))%nat
    /\ map shown (messages (ui (live p))) =
         [ (lit "a", user); (lit "You said: a", bot);
           (lit "b", user); (lit "You said: b", bot) ].
Proof.
  session_end p E.
  pose proof (echo_requests_and_reports_nothing None _ p E) as (N & C & A).
  specialize (A eq_refl).
  exists p. split; [reflexivity|]. split; [exact N|]. split; [exact C|].
  split; [exact A|].
  session_value E. reflexivity.
Defined.

(** ** Sessions without a credential *)

Lemma missing_key_report_counts :
  exchange_reports
    [ (lit "Error fetching bot response:", Widget.missingKey) ] = 1%nat.
Proof. vm_compute. reflexivity. Qed.

Lemma step_keyless (apiKey : option jsstring) (now : Date) (t : turn)
    (p p' : page) :
  Widget.present apiKey = None -> keyless_page p ->
  Concurrent.step apiKey completionWidget now t p = Some p' ->
  keyless_page p'.
Proof.
  intros Hk (T & N & U & C & M) H.
  destruct t as [e | fileUrl | fetched | ]; simpl in H.
  - destruct (is_settlement e) eqn:He.
    + destruct e; try discriminate He; simpl in H; rewrite T in H;
        discriminate H.
    + destruct (handled completionWidget e (closure p)) as [prog|] eqn:Hh;
        [|discriminate].
      inversion H; subst p'; clear H. unfold keyless_page, rerendered.
      destruct e; try discriminate He; simpl in Hh; try discriminate Hh;
        destruct (isExpanded (closure p)); try discriminate Hh;
        inversion Hh; subst prog; clear Hh; simpl;
        try (repeat split; assumption).
      unfold Widget.handleSendMessage. cbv zeta.
      destruct (is_empty_string (trim (inputText (closure p)))).
      * simpl. repeat split; assumption.
      * simpl run. rewrite Hk. simpl. rewrite M.
        repeat split; auto.
        -- apply Forall_app. split; [exact U|]. repeat constructor.
        -- rewrite exchange_reports_app, missing_key_report_counts,
             length_app, C. reflexivity.
  - inversion H; subst p'; clear H. unfold keyless_page.
    destruct fileUrl as [[|a url]|]; simpl; repeat split; auto.
    apply Forall_app. split; [exact N|]. repeat constructor.
  - destruct (inFlight p); [discriminate|].
    inversion H; subst p'; clear H. unfold keyless_page, fileSettled.
    destruct fetched as [[code [content | e]] | e]; simpl;
      repeat split; auto;
      rewrite exchange_reports_app, file_report_is_no_exchange_report,
        Nat.add_0_r; exact C.
  - inversion H; subst p'; clear H. unfold keyless_page. simpl.
    repeat split; auto.
Qed.

(** X15. Without a credential the completion-backed widget never asks
    for a completion, in any session, a racing send included: nothing is
    ever pending, every request issued is a GET of the file effect, the
    transcript holds user records only, and the console holds one report
    of a failed exchange for each of them. *)
Theorem keyless_session_asks_no_completion
    (apiKey : option jsstring) (ts : list (Date * turn)) (p : page) :
  Widget.present apiKey = None ->
  Concurrent.steps apiKey completionWidget ts mountedPage = Some p ->
  tasks (live p) = []
  /\ Forall (fun req => method req = lit "GET") (network (live p))
  /\ Forall (fun m => sender m = user) (messages (ui (live p)))
  /\ exchange_reports (console (live p)) = length (messages (ui (live p))).
Proof.
  intros Hk Hs.
  assert (H : forall p0, keyless_page p0 ->
                Concurrent.steps apiKey completionWidget ts p0 = Some p ->
                keyless_page p).
  { clear Hs. induction ts as [|[now t] ts IH]; simpl; intros p0 H0 Hs.
    - inversion Hs; subst. exact H0.
    - destruct (Concurrent.step apiKey completionWidget now t p0)
        as [p1|] eqn:H1; [|discriminate].
      exact (IH p1 (step_keyless apiKey now t p0 p1 Hk H0 H1) Hs). }
  destruct (H mountedPage) as (T & N & U & C & _);
    [repeat split; constructor | exact Hs |].
  auto.
Qed.

(** An instance of X15: the file is requested and fails to load, and two
    messages are sent with no variable set. *)
Lemma two_sends_without_key :
  exists p,
    Concurrent.steps None completionWidget
      [ (0, EffectRuns (Some (lit "/faq.txt")));
        (1, Dispatch OpenClicked);
        (2, Dispatch (InputChanged (lit "a"))); (3, Dispatch SendRequested);
        (4, FileSettles (Rejected NetworkError));
        (5, Dispatch (InputChanged (lit "b"))); (6, Dispatch SendRequested) ]
      mountedPage = Some p
    /\ tasks (live p) = []
    /\ map (fun req => (method req, url req)) (network (live p)) =
         [ (lit "GET", lit "/faq.txt") ]
    /\ map shown (messages (ui (live p))) =
         [ (lit "a", user); (lit "b", user) ]
    /\ length (console (live p)) = 3%nat
    /\ exchange_reports (console (live p)) = 2%nat.
Proof.
  session_end p E.
  pose proof (keyless_session_asks_no_completion None _ p eq_refl E)
    as (T & _).
  exists p. split; [reflexivity|]. split; [exact T|].
  session_value E. repeat split; reflexivity.
Defined.

(** ** What has been rendered *)

Section Rendered.

Variable apiKey : option jsstring.
Variable opts : time_options.
Variable c : component.
Hypothesis handler_submits : submits opts (onSend c).

Lemma step_rendered (now : Date) (t : turn) (p p' : page) :
  rendered_page p ->
  Concurrent.step apiKey c now t p = Some p' ->
  rendered_page p'
  /\ messages (closure p) `prefix_of` messages (closure p').
Proof.
  intros [Hr Hp] H.
  destruct t as [e | fileUrl | fetched | ]; simpl in H.
  - destruct (is_settlement e) eqn:He.
    + destruct (Runtime.step apiKey (onSend c) now e (live p)) as [w'|] eqn:H1;
        [|discriminate].
      inversion H; subst p'; clear H. simpl.
      assert (Hn : is_send e = false) by (destruct e; auto; discriminate He).
      destruct (step_other apiKey (onSend c) now e (live p) w' Hn Hr H1)
        as (R & bots & E & _).
      split; [|reflexivity]. split; [exact R|]. simpl. rewrite E.
      apply prefix_app_r, Hp.
    + destruct (handled c e (closure p)) as [prog|] eqn:Hh; [|discriminate].
      inversion H; subst p'; clear H. unfold rendered_page, rerendered.
      destruct e as [ | | s | | s | i o | i | i ]; try discriminate He;
        simpl in Hh; try discriminate Hh;
        destruct (isExpanded (closure p)); try discriminate Hh;
        inversion Hh; subst prog; clear Hh;
        try (simpl; split; [split; [exact Hr | exact Hp] | reflexivity]).
      pose proof (handler_submits (closure p)) as Hsend.
      destruct (is_empty_string (trim (inputText (closure p)))).
      * rewrite Hsend. simpl. split; [split; [exact Hr | exact Hp] | reflexivity].
      * destruct Hsend as (rest & Hrest & ->). simpl.
        match goal with
        | |- (replying (run apiKey now rest ?w1) /\ _) /\ _ =>
            destruct (run_replying apiKey rest now w1 Hrest Hr) as (R & _)
        end.
        match goal with
        | |- _ /\ _ `prefix_of` messages (ui (run apiKey now rest ?w2)) =>
            destruct (run_replies apiKey rest Hrest now w2)
              as (bots & _ & E & _);
            simpl in E
        end.
        split; [split; [exact R|] |].
        -- erewrite run_messages_agree; reflexivity.
        -- rewrite E, <- app_assoc. apply prefix_app_r. reflexivity.
  - destruct (hasFileEffect c); [|discriminate].
    inversion H; subst p'; clear H. unfold rendered_page. simpl.
    destruct fileUrl as [[|a url]|]; simpl;
      (split; [split; [exact Hr | exact Hp] | reflexivity]).
  - destruct (hasFileEffect c); [|discriminate].
    destruct (inFlight p); [discriminate|].
    inversion H; subst p'; clear H. unfold rendered_page, fileSettled. simpl.
    destruct fetched as [[code [content | e]] | e]; simpl;
      (split; [split; [exact Hr | exact Hp] | reflexivity]).
  - inversion H; subst p'; clear H. unfold rendered_page. simpl.
    split; [split; [exact Hr | reflexivity] | exact Hp].
Qed.

Lemma steps_rendered (ts : list (Date * turn)) :
  forall p p',
    rendered_page p ->
    Concurrent.steps apiKey c ts p = Some p' ->
    rendered_page p'
    /\ messages (closure p) `prefix_of` messages (closure p').
Proof.
  induction ts as [|[now t] ts IH]; intros p p' Hp H.
  - simpl in H. inversion H; subst. split; [exact Hp | reflexivity].
  - cbn [Concurrent.steps] in H.
    destruct (Concurrent.step apiKey c now t p) as [p1|] eqn:E; [|discriminate].
    destruct (step_rendered now t p p1 Hp E) as [H1 P1].
    destruct (IH p1 p' H1 H) as [H2 P2].
    split; [exact H2 | etransitivity; eassumption].
Qed.

End Rendered.

Lemma mounted_rendered : rendered_page mountedPage.
Proof. split; [constructor | reflexivity]. Qed.

(** X20. In both components the rows of the message list that React has
    rendered only grow during a session, whatever the order of events,
    renders and sends: what is rendered for the transcript at one point
    is the beginning of what is rendered later, so a rendered row keeps
    its index key, its class, its text and its timestamp. (A reply that a
    racing send overwrites is lost before it is ever rendered.) *)
Theorem rendered_rows_only_grow
    (apiKey : option jsstring) (c : component)
    (title description : jsstring)
    (before after : list (Date * turn)) (p p' : page) :
  c = completionWidget \/ c = echoWidget ->
  Concurrent.steps apiKey c before mountedPage = Some p ->
  Concurrent.steps apiKey c after p = Some p' ->
  isExpanded (closure p) = true ->
  isExpanded (closure p') = true ->
  exists rows more,
    render title description (closure p) =
      ChatWindow description rows (inputText (closure p))
    /\ render title description (closure p') =
         ChatWindow description (rows ++ more) (inputText (closure p'))
    /\ length rows = length (messages (closure p)).
Proof.
  intros Hc Hb Ha Hx Hx'.
  assert (Hs : submits Widget.timeOptions (onSend c)).
  { destruct Hc as [-> | ->]; [apply widget_submits | apply echo_submits]. }
  destruct (steps_rendered apiKey _ c Hs before mountedPage p
              mounted_rendered Hb) as [Rp _].
  destruct (steps_rendered apiKey _ c Hs after p p' Rp Ha)
    as [_ [added M]].
  unfold render. rewrite Hx, Hx', M, imap_app. simpl.
  do 2 eexists. split; [reflexivity|]. split; [reflexivity|].
  apply length_imap.
Qed.

(** An instance of X20: the reply to ["one"] has arrived and is not yet
    rendered when ["two"] is sent; the row of ["one"] stays the first row,
    and the row of ["two"] comes second. *)
Lemma racing_send_keeps_rendered_rows :
  exists p p',
    Concurrent.steps sampleKey completionWidget replyArrives mountedPage
      = Some p
    /\ Concurrent.steps sampleKey completionWidget
         [ (6, Dispatch SendRequested);
           (7, Dispatch (FetchSettled 0 (Rejected NetworkError))) ]
         p = Some p'
    /\ exists rows more,
        render (lit "Chat") (lit "Help") (closure p) =
          ChatWindow (lit "Help") rows (lit "two")
        /\ render (lit "Chat") (lit "Help") (closure p') =
             ChatWindow (lit "Help") (rows ++ more) []
        /\ map messageText rows = [ lit "one" ]
        /\ map messageText more = [ lit "two" ]
        /\ map key (rows ++ more) = [ 0; 1 ]%nat.
Proof.
  destruct (Concurrent.steps sampleKey completionWidget replyArrives mountedPage)
    as [p|] eqn:E; [|vm_compute in E; discriminate E].
  pose proof E as Hp. vm_compute in Hp.
  injection Hp as Hp. rewrite <- Hp in E |- *. clear p Hp.
  match goal with
  | |- exists p1 p', Some ?p0 = Some p1 /\ _ => exists p0
  end.
  match goal with
  | |- exists p', _ /\ Concurrent.steps ?k ?c ?ts ?p0 = _ /\ _ =>
      destruct (Concurrent.steps k c ts p0) as [p'|] eqn:E';
        [|vm_compute in E'; discriminate E']
  end.
  pose proof (rendered_rows_only_grow sampleKey completionWidget
                (lit "Chat") (lit "Help") _ _ _ p'
                (or_introl eq_refl) E E' eq_refl) as H.
  exists p'. split; [reflexivity|]. split; [reflexivity|].
  vm_compute in E'. injection E' as E'. rewrite <- E' in H |- *.
  destruct (H eq_refl) as (rows & more & R1 & R2 & _).
  exists rows, more. split; [exact R1|]. split; [exact R2|].
  match type of R1 with
  | ?l = _ => let v := eval vm_compute in l in change l with v in R1
  end.
  injection R1 as R1. rewrite <- R1 in R2 |- *.
  match type of R2 with
  | ?l = _ => let v := eval vm_compute in l in change l with v in R2
  end.
  injection R2 as R2. rewrite <- R2. repeat split; reflexivity.
Defined.

(** ** A send that races a reply *)


(** C4. Evaluation of the completion-backed widget where the claim fails:
    in the same race the bot record of the reply to ["one"], present after
    the reply arrived, is gone after the send of ["two"], and stays gone
    when the second exchange ends and React has rendered: a record of the
    transcript was removed, and ["one"] is left with no answer though its
    exchange succeeded. The echo widget loses a reply in the same way when
    its timer fires between a render and a send. *)
Lemma racing_send_drops_a_record :
  option_map (fun p => count bot (messages (ui (live p))))
    (Concurrent.steps sampleKey completionWidget replyArrives mountedPage)
  = Some 1%nat
  /\ option_map
       (fun p => (map shown (messages (ui (live p))),
                  map shown (messages (closure p)),
                  length (tasks (live p)), length (console (live p))))
       (Concurrent.steps sampleKey completionWidget
          (replyArrives ++
             [ (6, Dispatch SendRequested);
               (7, Dispatch
                     (FetchSettled 0
                        (Fulfilled
                           (responded 200 (completionPayload (lit "2"))))));
               (8, Dispatch (JsonSettled 0));
               (9, Commit) ])
          mountedPage)
     = Some ([ (lit "one", user); (lit "two", user); (lit "2", bot) ],
             [ (lit "one", user); (lit "two", user); (lit "2", bot) ],
             0%nat, 0%nat)
  /\ option_map (fun p => map shown (messages (ui (live p))))
       (Concurrent.steps sampleKey echoWidget
          [ (0, Dispatch OpenClicked);
            (1, Dispatch (InputChanged (lit "one")));
            (2, Dispatch SendRequested);
            (3, Dispatch (InputChanged (lit "two")));
            (4, Dispatch (TimerFired 0));
            (5, Dispatch SendRequested);
            (6, Dispatch (TimerFired 0)) ]
          mountedPage)
     = Some [ (lit "one", user); (lit "two", user);
              (lit "You said: two", bot) ].
Proof. repeat split; vm_compute; reflexivity. Qed.
